(** * EntregaFast: delivery lifecycle, offer matching, geocoding cascade,
      fallback route and position simulation

    A shallow embedding of the logic of [src/App.tsx],
    [src/components/CourierView.tsx] and the customer view (the second
    module of [src/services/geminiService.ts]).

    Conventions of the embedding:
    - a JavaScript [number] is an IEEE 754 binary64 value: Rocq's primitive
      [float]; an optional number ([pickupLat?: number]) is [option float],
      [None] being [undefined];
    - a JavaScript string is the list of its UTF-16 code units ([list N]),
      which is what [charCodeAt], [trim] and [===] look at;
    - React state is threaded explicitly: a handler is a function from the
      state of the render it was created in to the next state;
    - the network ([fetch]) is an oracle with a log of the queries it was
      given. *)

From Stdlib Require Import ZArith NArith Floats Uint63 String Ascii.
From stdpp Require Import base option list sorting gmap sets.

Local Open Scope Z_scope.
Set Warnings "-inexact-float".

(** ** JavaScript values *)

(** A string, as its UTF-16 code units. *)
Definition jsstring : Type := list N.

(** An ASCII literal of the source, as code units. *)
Definition lit (s : String.string) : jsstring :=
  List.map N_of_ascii (String.list_ascii_of_string s).

(** [x && ...] on a number that may be [undefined]: [undefined], [0], [-0]
    and [NaN] are falsy, every other number is truthy. *)
Definition truthy (x : option float) : bool :=
  match x with
  | None => false
  | Some v => negb (PrimFloat.is_zero v || PrimFloat.is_nan v)
  end.

(** [typeof val === 'number' && !isNaN(val) && isFinite(val)] *)
Definition isNum (x : option float) : bool :=
  match x with
  | None => false
  | Some v => negb (PrimFloat.is_nan v) && PrimFloat.is_finite v
  end.

(** A [[number, number]] tuple, [[lat, lng]]. *)
Definition LatLng : Type := (float * float)%type.

(** ** types.ts *)

Inductive DeliveryStatus : Type :=
  | PENDING
  | ACCEPTED
  | PICKED_UP
  | ARRIVED_DESTINATION
  | DELIVERED.

#[global] Instance DeliveryStatus_eq_dec : EqDecision DeliveryStatus.
Proof. solve_decision. Defined.

Inductive PaymentMethod : Type := PIX | CASH.
Inductive PayerType : Type := SENDER | RECIPIENT.

Record DeliveryRequest : Type := mkRequest {
  id : jsstring;
  itemDescription : jsstring;
  pickupAddress : jsstring;
  dropoffAddress : jsstring;
  status : DeliveryStatus;
  createdAt : Z;
  imageUrl : option jsstring;
  courierId : option jsstring;
  recipientName : jsstring;
  recipientPhone : jsstring;
  paymentMethod : PaymentMethod;
  payer : PayerType;
  pickupLat : option float;
  pickupLng : option float;
  dropoffLat : option float;
  dropoffLng : option float
}.

(** [{ ...req, status }] *)
Definition with_status (s : DeliveryStatus) (req : DeliveryRequest) : DeliveryRequest :=
  {| id := id req;
     itemDescription := itemDescription req;
     pickupAddress := pickupAddress req;
     dropoffAddress := dropoffAddress req;
     status := s;
     createdAt := createdAt req;
     imageUrl := imageUrl req;
     courierId := courierId req;
     recipientName := recipientName req;
     recipientPhone := recipientPhone req;
     paymentMethod := paymentMethod req;
     payer := payer req;
     pickupLat := pickupLat req;
     pickupLng := pickupLng req;
     dropoffLat := dropoffLat req;
     dropoffLng := dropoffLng req |}.

(** ** App.tsx *)

(** [handleCreateRequest]: [{ ...newRequest, id, createdAt, status: PENDING }]
    is put in front of the list. [rnd] stands for
    [Math.random().toString(36).substr(2, 9)] and [now] for [Date.now()]. *)
Definition handleCreateRequest (rnd : jsstring) (now : Z)
    (newRequest : DeliveryRequest) (prev : list DeliveryRequest) : list DeliveryRequest :=
  {| id := rnd;
     itemDescription := itemDescription newRequest;
     pickupAddress := pickupAddress newRequest;
     dropoffAddress := dropoffAddress newRequest;
     status := PENDING;
     createdAt := now;
     imageUrl := imageUrl newRequest;
     courierId := courierId newRequest;
     recipientName := recipientName newRequest;
     recipientPhone := recipientPhone newRequest;
     paymentMethod := paymentMethod newRequest;
     payer := payer newRequest;
     pickupLat := pickupLat newRequest;
     pickupLng := pickupLng newRequest;
     dropoffLat := dropoffLat newRequest;
     dropoffLng := dropoffLng newRequest |} :: prev.

(** [handleUpdateStatus]:
    [prev.map(req => req.id === id ? { ...req, status } : req)] *)
Definition handleUpdateStatus (i : jsstring) (s : DeliveryStatus)
    (prev : list DeliveryRequest) : list DeliveryRequest :=
  List.map (fun req => if decide (id req = i) then with_status s req else req) prev.

(** ** CourierView.tsx: coordinates *)

Definition DEFAULT_LAT : float := (-29.6842)%float.
Definition DEFAULT_LNG : float := (-53.8069)%float.

Definition getSafeLat (lat : float) : float := if isNum (Some lat) then lat else DEFAULT_LAT.
Definition getSafeLng (lng : float) : float := if isNum (Some lng) then lng else DEFAULT_LNG.

(** An integer of small magnitude as a number (exact below 2^53). *)
Definition float_of_Z (z : Z) : float :=
  if (z <? 0)%Z then PrimFloat.opp (PrimFloat.of_uint63 (Uint63.of_Z (- z)))
  else PrimFloat.of_uint63 (Uint63.of_Z z).

(** [safeId.split('').reduce((acc, char) => acc + char.charCodeAt(0), 0)]:
    the sum of the code units. The sum is an integer below 2^53 for every
    string an engine can hold, so the binary64 additions of the source are
    exact and the sum is computed in [Z]. *)
Definition idHash (safeId : jsstring) : Z :=
  fold_left (fun acc char => acc + Z.of_N char) safeId 0.

(** [getCoordinates]: the deterministic pseudo-coordinate of an id around a
    centre. [id || 'default'] replaces the empty string. *)
Definition getCoordinates (i : jsstring) (centerLat centerLng : float) : LatLng :=
  let baseLat := getSafeLat centerLat in
  let baseLng := getSafeLng centerLng in
  let safeId := match i with [] => lit "default" | _ => i end in
  let hash := idHash safeId in
  let latOffset := (float_of_Z (hash mod 100 - 50) / 2500)%float in
  let lngOffset := (float_of_Z ((hash * 13) mod 100 - 50) / 2500)%float in
  ((baseLat + latOffset)%float, (baseLng + lngOffset)%float).

(** [generateSmartRouteFallback]: the Manhattan route used when the routing
    service gives nothing. [a > b] on numbers is [b <? a]. *)
Definition generateSmartRouteFallback (start end_ : LatLng) : list LatLng :=
  let '(startLat, startLng) := start in
  let '(endLat, endLng) := end_ in
  let goLatFirst :=
    (PrimFloat.abs (startLng - endLng) <? PrimFloat.abs (startLat - endLat))%float in
  if goLatFirst then [start; (endLat, startLng); end_]
  else [start; (startLat, endLng); end_].

(** The route [drawRoute] hands to the polyline: [fetched] is what
    [fetchRoute] resolved to ([None] for [null]);
    [if (!routePoints || routePoints.length === 0)] takes the fallback. *)
Definition drawRoute_points (fetched : option (list LatLng)) (startCoords endCoords : LatLng)
    : list LatLng :=
  match fetched with
  | None | Some [] => generateSmartRouteFallback startCoords endCoords
  | Some routePoints => routePoints
  end.

(** The test [(lat && lng) ? [lat, lng] : ...] that every coordinate
    accessor makes on a stored pair: the pair is used only when both
    numbers are truthy. *)
Definition storedPair (lat lng : option float) : option LatLng :=
  match lat, lng with
  | Some a, Some b => if truthy (Some a) && truthy (Some b) then Some (a, b) else None
  | _, _ => None
  end.

(** [getPickupCoords], [getDropoffCoords] and [getTargetCoordinates] close
    over the [userLocation] state. *)
Definition getPickupCoords (userLocation : LatLng) (req : DeliveryRequest) : LatLng :=
  match storedPair (pickupLat req) (pickupLng req) with
  | Some c => c
  | None => getCoordinates (id req) (fst userLocation) (snd userLocation)
  end.

Definition getDropoffCoords (userLocation : LatLng) (req : DeliveryRequest) : LatLng :=
  match storedPair (dropoffLat req) (dropoffLng req) with
  | Some c => c
  | None =>
      let pickup := getPickupCoords userLocation req in
      ((fst pickup + 0.01)%float, (snd pickup + 0.01)%float)
  end.

Definition getTargetCoordinates (userLocation : LatLng) (request : DeliveryRequest)
    : option LatLng :=
  if negb (isNum (Some (fst userLocation))) || negb (isNum (Some (snd userLocation)))
  then None
  else
    match status request with
    | PICKED_UP | ARRIVED_DESTINATION =>
        match storedPair (dropoffLat request) (dropoffLng request) with
        | Some c => Some c
        | None =>
            let c := getCoordinates (id request) (fst userLocation) (snd userLocation) in
            Some ((fst c + 0.01)%float, (snd c + 0.01)%float)
        end
    | _ =>
        match storedPair (pickupLat request) (pickupLng request) with
        | Some c => Some c
        | None => Some (getCoordinates (id request) (fst userLocation) (snd userLocation))
        end
    end.

(** ** CourierView.tsx: state, effects and handlers *)

Inductive Tab : Type := home | profile | help | statement.

(** The [useState] cells of [CourierView] that the dispatch logic reads or
    writes, together with the [requests] prop, which is the state cell of
    [App] that [onUpdateStatus] (that is, [handleUpdateStatus]) writes. *)
Record CourierState : Type := mkCourier {
  requests : list DeliveryRequest;
  activeTab : Tab;
  selectedId : option jsstring;
  userLocation : LatLng;
  isOnline : bool;
  incomingOffer : option DeliveryRequest;
  ignoredOffers : gset jsstring;
  activeDelivery : option DeliveryRequest
}.

Definition set_requests (v : list DeliveryRequest) (st : CourierState) : CourierState :=
  mkCourier v (activeTab st) (selectedId st) (userLocation st) (isOnline st)
            (incomingOffer st) (ignoredOffers st) (activeDelivery st).
Definition setActiveTab (v : Tab) (st : CourierState) : CourierState :=
  mkCourier (requests st) v (selectedId st) (userLocation st) (isOnline st)
            (incomingOffer st) (ignoredOffers st) (activeDelivery st).
Definition setSelectedId (v : option jsstring) (st : CourierState) : CourierState :=
  mkCourier (requests st) (activeTab st) v (userLocation st) (isOnline st)
            (incomingOffer st) (ignoredOffers st) (activeDelivery st).
Definition setIsOnline (v : bool) (st : CourierState) : CourierState :=
  mkCourier (requests st) (activeTab st) (selectedId st) (userLocation st) v
            (incomingOffer st) (ignoredOffers st) (activeDelivery st).
Definition setIncomingOffer (v : option DeliveryRequest) (st : CourierState) : CourierState :=
  mkCourier (requests st) (activeTab st) (selectedId st) (userLocation st) (isOnline st)
            v (ignoredOffers st) (activeDelivery st).
Definition setIgnoredOffers (v : gset jsstring) (st : CourierState) : CourierState :=
  mkCourier (requests st) (activeTab st) (selectedId st) (userLocation st) (isOnline st)
            (incomingOffer st) v (activeDelivery st).
Definition setActiveDelivery (v : option DeliveryRequest) (st : CourierState) : CourierState :=
  mkCourier (requests st) (activeTab st) (selectedId st) (userLocation st) (isOnline st)
            (incomingOffer st) (ignoredOffers st) v.

(** [[ACCEPTED, PICKED_UP, ARRIVED_DESTINATION].includes(r.status)] *)
Definition isActive (r : DeliveryRequest) : bool :=
  match status r with
  | ACCEPTED | PICKED_UP | ARRIVED_DESTINATION => true
  | PENDING | DELIVERED => false
  end.

(** The predicate of the offer scan:
    [r.status === PENDING && !ignoredOffers.has(r.id)] *)
Definition isOfferable (ignored : gset jsstring) (r : DeliveryRequest) : bool :=
  bool_decide (status r = PENDING) && negb (bool_decide (id r ∈ ignored)).

(** The "Active Delivery Detection" effect (dependency: [requests]). *)
Definition activeDeliveryEffect (st : CourierState) : CourierState :=
  let currentActive := List.find isActive (requests st) in
  let st := setActiveDelivery currentActive st in
  match currentActive with
  | Some _ => setIncomingOffer None (setActiveTab home st)
  | None => st
  end.

(** The "Offer Detection" effect (dependencies: [requests], [isOnline],
    [ignoredOffers], [userLocation], [activeDelivery]); the map is moved as
    well, which is presentation and left out. *)
Definition offerEffect (st : CourierState) : CourierState :=
  if negb (isOnline st) || bool_decide (is_Some (activeDelivery st))
  then setIncomingOffer None st
  else
    match List.find (isOfferable (ignoredOffers st)) (requests st) with
    | Some offer =>
        setActiveTab home (setSelectedId (Some (id offer)) (setIncomingOffer (Some offer) st))
    | None => setIncomingOffer None st
    end.

(** [handleAcceptOffer] *)
Definition handleAcceptOffer (st : CourierState) : CourierState :=
  match incomingOffer st with
  | Some offer =>
      setSelectedId None
        (setIncomingOffer None
           (set_requests (handleUpdateStatus (id offer) ACCEPTED (requests st)) st))
  | None => st
  end.

(** [handleDeclineOffer]: [new Set(prev).add(incomingOffer.id)] *)
Definition handleDeclineOffer (st : CourierState) : CourierState :=
  match incomingOffer st with
  | Some offer =>
      setSelectedId None
        (setIncomingOffer None
           (setIgnoredOffers ({[ id offer ]} ∪ ignoredOffers st) st))
  | None => st
  end.

(** The status [handleProgressAction] asks for, by the [switch] on the
    active delivery's status; [None] where the [switch] has no case. *)
Definition progressTarget (s : DeliveryStatus) : option DeliveryStatus :=
  match s with
  | ACCEPTED => Some PICKED_UP
  | PICKED_UP => Some ARRIVED_DESTINATION
  | ARRIVED_DESTINATION => Some DELIVERED
  | PENDING | DELIVERED => None
  end.

(** [handleProgressAction] *)
Definition handleProgressAction (st : CourierState) : CourierState :=
  match activeDelivery st with
  | None => st
  | Some active =>
      match status active with
      | ACCEPTED =>
          set_requests (handleUpdateStatus (id active) PICKED_UP (requests st)) st
      | PICKED_UP =>
          set_requests (handleUpdateStatus (id active) ARRIVED_DESTINATION (requests st)) st
      | ARRIVED_DESTINATION =>
          setActiveDelivery None
            (set_requests (handleUpdateStatus (id active) DELIVERED (requests st)) st)
      | PENDING | DELIVERED => st
      end
  end.


(** ** CourierView.tsx: runs

    The buttons of the courier view as actions. A handler that sets no
    state leaves everything as it is. After a handler that set some state
    React renders again, commits, and runs the effects whose dependencies
    changed. The effects of one commit all read the values of the render
    that was committed, not what an effect before them has just set; their
    state calls take effect together, in the order they were made, and give
    the next render.

    After a change of [requests] (and at mount) both effects run:
    [commit] is the render that follows, in which the offer effect has
    read the [activeDelivery] of the render before. In that render
    [activeDelivery] may have changed, which is a dependency of the offer
    effect only, so the offer effect runs once more, now reading the new
    [activeDelivery]; it sets none of its own dependencies, so the view is
    at rest then: [settle]. (When [activeDelivery] has not changed the
    offer effect would set what it has set already.) After a change of
    [ignoredOffers] or [isOnline] alone only the offer effect runs, once.
    A click on an entry of the list of available requests only calls
    [setIncomingOffer], which is no dependency of either effect.

    [perform] gives the state the view is at rest on after an action; the
    renders committed on the way are [handler st] and [commit (handler st)].
    The conditions under which the buttons are rendered are left out (every
    button can be pressed in every state), except for the list of available
    requests; the active tab is not looked at. *)

Inductive Action : Type :=
  | Accept          (* "Aceitar Corrida": handleAcceptOffer *)
  | Decline         (* handleDeclineOffer *)
  | Progress        (* the action button of the active delivery: handleProgressAction *)
  | ToggleOnline    (* setIsOnline(!isOnline) *)
  | Pick (k : nat). (* click on the k-th entry of availableRequests *)

(** The state calls of the offer effect when it runs in a render whose
    values are [read], applied to [st], the state with the calls made
    before it in the same commit. *)
Definition offerWrites (read st : CourierState) : CourierState :=
  if negb (isOnline read) || bool_decide (is_Some (activeDelivery read))
  then setIncomingOffer None st
  else
    match List.find (isOfferable (ignoredOffers read)) (requests read) with
    | Some offer =>
        setActiveTab home (setSelectedId (Some (id offer)) (setIncomingOffer (Some offer) st))
    | None => setIncomingOffer None st
    end.

(** The render after a commit in which both effects ran on the values of
    [st]. *)
Definition commit (st : CourierState) : CourierState :=
  offerWrites st (activeDeliveryEffect st).

(** The state the view comes to rest on after a change of [requests], or
    after mounting. *)
Definition settle (st : CourierState) : CourierState :=
  offerEffect (commit st).

(** [requests.filter(r => r.status === DeliveryStatus.PENDING)] *)
Definition availableRequests (st : CourierState) : list DeliveryRequest :=
  List.filter (λ r, bool_decide (status r = PENDING)) (requests st).

(** The list of available requests is rendered only when the courier is
    online and there is neither an offer nor an active delivery. *)
Definition perform (a : Action) (st : CourierState) : CourierState :=
  match a with
  | Accept =>
      match incomingOffer st with
      | Some _ => settle (handleAcceptOffer st)
      | None => st
      end
  | Decline =>
      match incomingOffer st with
      | Some _ => offerEffect (handleDeclineOffer st)
      | None => st
      end
  | Progress =>
      match activeDelivery st with
      | Some active =>
          match progressTarget (status active) with
          | Some _ => settle (handleProgressAction st)
          | None => st
          end
      | None => st
      end
  | ToggleOnline => offerEffect (setIsOnline (negb (isOnline st)) st)
  | Pick k =>
      if isOnline st && negb (bool_decide (is_Some (incomingOffer st)))
         && negb (bool_decide (is_Some (activeDelivery st)))
      then match availableRequests st !! k with
           | Some req => setIncomingOffer (Some req) st
           | None => st
           end
      else st
  end.

Definition run (actions : list Action) (st : CourierState) : CourierState :=
  foldl (λ st a, perform a st) st actions.

(** ** CustomerView: tracking legs and the simulation timer *)

(** The tracked leg of the "Tracking Logic" effect: the pickup and dropoff
    points (stored pair, or a default around the user's location) and the
    segment [(startPos, endPos)] the courier marker is moved along. The
    effect does nothing for a [DELIVERED] request: [None]. *)
Definition trackingPickup (userLocation : LatLng) (trackingRequest : DeliveryRequest) : LatLng :=
  let defaultPickup :=
    ((fst userLocation - 0.005)%float, (snd userLocation - 0.005)%float) in
  match storedPair (pickupLat trackingRequest) (pickupLng trackingRequest) with
  | Some c => c
  | None => defaultPickup
  end.

Definition trackingDropoff (userLocation : LatLng) (trackingRequest : DeliveryRequest) : LatLng :=
  let defaultDropoff :=
    ((fst userLocation + 0.005)%float, (snd userLocation + 0.005)%float) in
  match storedPair (dropoffLat trackingRequest) (dropoffLng trackingRequest) with
  | Some c => c
  | None => defaultDropoff
  end.


(** One run of the [setInterval] callback on the counter:
    [progress += 0.005; if (progress > 1) { ARRIVED ? 1 : 0 }]. *)
Definition tickProgress (s : DeliveryStatus) (progress : float) : float :=
  let progress := (progress + 0.005)%float in
  if (1 <? progress)%float then
    match s with
    | ARRIVED_DESTINATION => 1%float
    | _ => 0%float
    end
  else progress.

(** [[curLat, curLng]] of the callback. *)
Definition interpolate (startPos endPos : LatLng) (progress : float) : LatLng :=
  ((fst startPos + (fst endPos - fst startPos) * progress)%float,
   (snd startPos + (snd endPos - snd startPos) * progress)%float).

(** The whole callback on the pair (counter, marker position): the marker
    is moved only to a position whose two numbers pass [isNum]. *)
Definition simulationTick (s : DeliveryStatus) (startPos endPos : LatLng)
    (st : float * LatLng) : float * LatLng :=
  let progress := tickProgress s (fst st) in
  let cur := interpolate startPos endPos progress in
  if isNum (Some (fst cur)) && isNum (Some (snd cur)) then (progress, cur)
  else (progress, snd st).

(** ** CustomerView: the geocoding cascade *)

(** The code units [String.prototype.trim] strips: ECMAScript's WhiteSpace
    and LineTerminator (all in the Basic Multilingual Plane). *)
Definition isWhiteSpace (c : N) : bool :=
  match c with
  | 9 | 10 | 11 | 12 | 13 | 32 | 160 | 5760 | 8232 | 8233 | 8239 | 8287 | 12288 | 65279 => true
  | _ => (8192 <=? c)%N && (c <=? 8202)%N
  end%N.

Fixpoint trimStart (s : jsstring) : jsstring :=
  match s with
  | c :: s' => if isWhiteSpace c then trimStart s' else s
  | [] => []
  end.

Definition trim (s : jsstring) : jsstring :=
  rev (trimStart (rev (trimStart s))).

(** A string in a condition: the empty string is falsy. *)
Definition nonEmpty (s : jsstring) : bool :=
  match s with [] => false | _ => true end.

Inductive Precision : Type := exact | street | neighborhood | city.

(** The first element of the service's JSON answer, as far as it is read. *)
Record Hit : Type := mkHit {
  hit_lat : jsstring;
  hit_lon : jsstring;
  hit_display_name : jsstring
}.

Record GeocodeResult : Type := mkGeocodeResult {
  lat : float;
  lng : float;
  display_name : jsstring;
  precision : Precision
}.

(** The geocoding service seen from [doFetch]: [service past q] is the
    answer to query [q] after the queries [past] ([None] when the request
    fails, the answer is malformed or the list of matches is empty, which
    [doFetch] does not tell apart); [queries] is the log of the queries
    issued so far, oldest first. *)
Record Net : Type := mkNet {
  service : list jsstring -> jsstring -> option Hit;
  queries : list jsstring
}.

(** Computations that talk to the service. *)
Definition Fetch (A : Type) : Type := Net -> A * Net.

Definition ret {A} (a : A) : Fetch A := fun net => (a, net).
Definition bind {A B} (m : Fetch A) (k : A -> Fetch B) : Fetch B :=
  fun net => let '(a, net') := m net in k a net'.

Notation "'let*' x ':=' m 'in' k" := (bind m (fun x => k))
  (at level 10, x name, m at level 100, k at level 200).

(** [doFetch]: one lookup. *)
Definition doFetch (query : jsstring) : Fetch (option Hit) :=
  fun net => (service net (queries net) query,
              mkNet (service net) (queries net ++ [query])).

Definition RS_BRASIL : jsstring := lit ", Rio Grande do Sul, Brasil".
Definition comma : jsstring := lit ", ".

Section Geocoder.

(** [parseFloat] of the JavaScript library, on whose result no claim
    depends. *)
Variable parseFloat : jsstring -> float.

Definition toResult (p : Precision) (result : Hit) : GeocodeResult :=
  {| lat := parseFloat (hit_lat result);
     lng := parseFloat (hit_lon result);
     display_name := hit_display_name result;
     precision := p |}.

(** [geocodeAddress]: the four attempts, each behind its [if], each
    returning at once on a match. *)
Definition geocodeAddress (street_ number neighborhood_ city_ : jsstring)
    : Fetch (option GeocodeResult) :=
  let cleanStreet := trim street_ in
  let cleanNum := trim number in
  let cleanCity := trim city_ in
  let cleanNeighborhood := trim neighborhood_ in
  let* r1 :=
    (if nonEmpty cleanStreet && nonEmpty cleanNum && nonEmpty cleanCity
     then doFetch (cleanStreet ++ comma ++ cleanNum ++ comma ++ cleanCity ++ RS_BRASIL)
     else ret None) in
  match r1 with
  | Some result => ret (Some (toResult exact result))
  | None =>
  let* r2 :=
    (if nonEmpty cleanStreet && nonEmpty cleanCity
     then doFetch (cleanStreet ++ comma ++ cleanCity ++ RS_BRASIL)
     else ret None) in
  match r2 with
  | Some result => ret (Some (toResult street result))
  | None =>
  let* r3 :=
    (if nonEmpty cleanNeighborhood && nonEmpty cleanCity
     then doFetch (cleanNeighborhood ++ comma ++ cleanCity ++ RS_BRASIL)
     else ret None) in
  match r3 with
  | Some result => ret (Some (toResult neighborhood result))
  | None =>
  let* r4 :=
    (if nonEmpty cleanCity
     then doFetch (cleanCity ++ RS_BRASIL)
     else ret None) in
  match r4 with
  | Some result => ret (Some (toResult city result))
  | None => ret None
  end end end end.

End Geocoder.

(** ** Definitions for the properties

    What the specification says (the transition table, the cascade of
    tiers), and the predicates the properties are stated with. *)

(** The specification's transition table: the one legal successor of each
    status. *)
Definition successor (s : DeliveryStatus) : option DeliveryStatus :=
  match s with
  | PENDING => Some ACCEPTED
  | ACCEPTED => Some PICKED_UP
  | PICKED_UP => Some ARRIVED_DESTINATION
  | ARRIVED_DESTINATION => Some DELIVERED
  | DELIVERED => None
  end.

(** Two requests agree on every field other than [status]. *)
Definition same_but_status (r r' : DeliveryRequest) : Prop :=
  id r' = id r ∧ itemDescription r' = itemDescription r ∧
  pickupAddress r' = pickupAddress r ∧ dropoffAddress r' = dropoffAddress r ∧
  createdAt r' = createdAt r ∧ imageUrl r' = imageUrl r ∧
  courierId r' = courierId r ∧ recipientName r' = recipientName r ∧
  recipientPhone r' = recipientPhone r ∧ paymentMethod r' = paymentMethod r ∧
  payer r' = payer r ∧ pickupLat r' = pickupLat r ∧ pickupLng r' = pickupLng r ∧
  dropoffLat r' = dropoffLat r ∧ dropoffLng r' = dropoffLng r.

(** One request before and after a handler: untouched, or moved to the
    exact successor of its status with every other field kept. *)
Definition legal_step (r r' : DeliveryRequest) : Prop :=
  r' = r ∨ (successor (status r) = Some (status r') ∧ r' = with_status (status r') r).

(** A list before and after a handler: untouched, or one position has
    moved to the exact successor of its status, with every other field
    kept, and every other position is as it was. *)
Definition one_step (l l' : list DeliveryRequest) : Prop :=
  l' = l ∨
  ∃ k r s, l !! k = Some r ∧ successor (status r) = Some s ∧
           l' = <[k := with_status s r]> l.

(** The list is ordered from the most recently created request to the
    oldest one. *)
Definition newestFirst (l : list DeliveryRequest) : Prop :=
  StronglySorted (λ a b, createdAt b ≤ createdAt a) l.

(** A stored number that is [0] or [-0]. *)
Definition isZero (x : option float) : bool :=
  match x with
  | Some v => PrimFloat.is_zero v
  | None => false
  end.


(** The cascade in the specification's words: the query of each tier, the
    fields a tier needs, and "attempts in strict order, first non-empty
    result wins" over the tiers that are not skipped. The fields are the
    trimmed ones. *)
Definition tierQuery (p : Precision) (cleanStreet cleanNum cleanNeighborhood cleanCity : jsstring)
    : jsstring :=
  match p with
  | exact => cleanStreet ++ comma ++ cleanNum ++ comma ++ cleanCity ++ RS_BRASIL
  | street => cleanStreet ++ comma ++ cleanCity ++ RS_BRASIL
  | neighborhood => cleanNeighborhood ++ comma ++ cleanCity ++ RS_BRASIL
  | city => cleanCity ++ RS_BRASIL
  end.

Definition tierApplies (p : Precision) (cleanStreet cleanNum cleanNeighborhood cleanCity : jsstring)
    : bool :=
  match p with
  | exact => nonEmpty cleanStreet && nonEmpty cleanNum && nonEmpty cleanCity
  | street => nonEmpty cleanStreet && nonEmpty cleanCity
  | neighborhood => nonEmpty cleanNeighborhood && nonEmpty cleanCity
  | city => nonEmpty cleanCity
  end.

Definition applicableTiers (cleanStreet cleanNum cleanNeighborhood cleanCity : jsstring)
    : list (Precision * jsstring) :=
  List.map (λ p, (p, tierQuery p cleanStreet cleanNum cleanNeighborhood cleanCity))
    (List.filter (λ p, tierApplies p cleanStreet cleanNum cleanNeighborhood cleanCity)
       [exact; street; neighborhood; city]).

Fixpoint cascade (parseFloat : jsstring → float) (tiers : list (Precision * jsstring))
    : Fetch (option GeocodeResult) :=
  match tiers with
  | [] => ret None
  | (p, query) :: rest =>
      let* r := doFetch query in
      match r with
      | Some result => ret (Some (toResult parseFloat p result))
      | None => cascade parseFloat rest
      end
  end.

(** What the effects establish and every action keeps: unique ids, the
    active delivery is the first active request of the list, and an offer
    is a PENDING request of the list. *)
Definition consistent (st : CourierState) : Prop :=
  NoDup (id <$> requests st) ∧
  activeDelivery st = List.find isActive (requests st) ∧
  ∀ offer, incomingOffer st = Some offer → offer ∈ requests st ∧ status offer = PENDING.

(** The position of a status in the lifecycle. *)
Definition rank (s : DeliveryStatus) : nat :=
  match s with
  | PENDING => 0
  | ACCEPTED => 1
  | PICKED_UP => 2
  | ARRIVED_DESTINATION => 3
  | DELIVERED => 4
  end.

(** ** Sample data *)

(** A request with the given id, status, creation time and coordinates;
    the texts are those of the first sample request of [App.tsx]. *)
Definition sampleRequest (i : jsstring) (s : DeliveryStatus) (t : Z)
    (pLat pLng dLat dLng : option float) : DeliveryRequest :=
  {| id := i;
     itemDescription := lit "Documentos Importantes";
     pickupAddress := lit "Rua do Acampamento, 300";
     dropoffAddress := lit "Av. Rio Branco, 850";
     status := s;
     createdAt := t;
     imageUrl := None;
     courierId := None;
     recipientName := lit "Maria Silva";
     recipientPhone := lit "(55) 99999-1234";
     paymentMethod := PIX;
     payer := SENDER;
     pickupLat := pLat;
     pickupLng := pLng;
     dropoffLat := dLat;
     dropoffLng := dLng |}.

(** The second sample request of [App.tsx], with the given status and
    creation time. *)
Definition secondRequest (s : DeliveryStatus) (t : Z) : DeliveryRequest :=
  {| id := lit "2";
     itemDescription := lit "Pe" ++ [231%N] ++ lit "as de Computador";
     pickupAddress := lit "Rua Ven" ++ [226%N] ++ lit "ncio Aires, 1500";
     dropoffAddress := lit "Av. Nossa Sra. Medianeira, 100";
     status := s;
     createdAt := t;
     imageUrl := None;
     courierId := None;
     recipientName := lit "Jo" ++ [227%N] ++ lit "o Santos";
     recipientPhone := lit "(55) 98888-5678";
     paymentMethod := CASH;
     payer := RECIPIENT;
     pickupLat := None;
     pickupLng := None;
     dropoffLat := None;
     dropoffLng := None |}.

(** The two requests [App] starts with (without coordinates). Each takes
    its [createdAt] from a call of [Date.now()] of its own: [t1] is the
    reading for request ["1"], [t2] the later reading for request ["2"]. *)
Definition initialRequests (t1 t2 : Z) : list DeliveryRequest :=
  [ sampleRequest (lit "1") PENDING t1 None None None None;
    secondRequest PENDING t2 ].

(** The state [CourierView] is mounted with, over a given list. *)
Definition initialCourier (reqs : list DeliveryRequest) : CourierState :=
  {| requests := reqs;
     activeTab := home;
     selectedId := None;
     userLocation := (DEFAULT_LAT, DEFAULT_LNG);
     isOnline := true;
     incomingOffer := None;
     ignoredOffers := ∅;
     activeDelivery := None |}.

(** A courier whose current offer is a copy of request ["1"] taken while it
    was PENDING; the stored request has since reached PICKED_UP. *)
Definition staleOffer : CourierState :=
  {| requests := [ sampleRequest (lit "1") PICKED_UP 0 None None None None ];
     activeTab := home;
     selectedId := Some (lit "1");
     userLocation := (DEFAULT_LAT, DEFAULT_LNG);
     isOnline := true;
     incomingOffer := Some (sampleRequest (lit "1") PENDING 0 None None None None);
     ignoredOffers := ∅;
     activeDelivery := None |}.

(** Two requests created at times 1 and 2 on an empty list. *)
Definition twoCreated : list DeliveryRequest :=
  handleCreateRequest (lit "b") 2 (sampleRequest [] PENDING 0 None None None None)
    (handleCreateRequest (lit "a") 1 (sampleRequest [] PENDING 0 None None None None) []).


(** A request whose stored pickup pair is (10,10) and whose stored dropoff
    latitude is exactly 0. *)
Definition zeroDropoffLat : DeliveryRequest :=
  sampleRequest (lit "1") ACCEPTED 0
    (Some 10%float) (Some 10%float) (Some 0%float) (Some 5%float).

(** A service that knows every place, and one that knows none. *)
Definition knowsAll : Net :=
  {| service := λ _ query, Some (mkHit (lit "-29.68") (lit "-53.80") query);
     queries := [] |}.
Definition knowsNone : Net :=
  {| service := λ _ _, None; queries := [] |}.

(** A stand-in for [parseFloat] in the examples, which do not look at the
    coordinates. *)
Definition noCoordinates : jsstring → float := λ _, nan.

(** * The rest of the code *)

(** ** CourierView.tsx: statistics *)

(** [requests.filter(r => r.status === DeliveryStatus.DELIVERED)] *)
Definition finishedRequests (st : CourierState) : list DeliveryRequest :=
  List.filter (λ r, bool_decide (status r = DELIVERED)) (requests st).

Definition finishedCount (st : CourierState) : nat := length (finishedRequests st).

(** [finishedRequests.length * 15.90] *)
Definition todayEarnings (st : CourierState) : float :=
  (float_of_Z (Z.of_nat (length (finishedRequests st))) * 15.90)%float.

(** ** CourierView.tsx: the action button *)



(** ** CourierView.tsx: geolocation *)

Definition setUserLocation (v : LatLng) (st : CourierState) : CourierState :=
  mkCourier (requests st) (activeTab st) (selectedId st) v (isOnline st)
            (incomingOffer st) (ignoredOffers st) (activeDelivery st).

(** The two callbacks handed to [getCurrentPosition]: a position is taken
    only when both of its numbers pass [isNum]; an error puts the default
    location back. (Moving the map is left out. [userLocation] is a
    dependency of the offer effect, which runs again after a change; that
    run sets no location and is not part of the callbacks.) *)
Inductive GeoEvent : Type :=
  | GeoPosition (latitude longitude : float)
  | GeoError.

Definition onGeoEvent (e : GeoEvent) (st : CourierState) : CourierState :=
  match e with
  | GeoPosition latitude longitude =>
      if isNum (Some latitude) && isNum (Some longitude)
      then setUserLocation (latitude, longitude) st
      else st
  | GeoError => setUserLocation (DEFAULT_LAT, DEFAULT_LNG) st
  end.

(** ** CourierView.tsx: the routing service *)

(** The answer of the routing service as far as [fetchRoute] reads it:
    [code], and [routes] with the [geometry.coordinates] of each route, a
    list of [[lng, lat]] pairs. [None] stands for a part that is missing
    ([routes] undefined; a route without geometry, on which [.map] throws). *)
Record OsrmRoute : Type := mkOsrmRoute {
  coordinates : option (list (float * float))
}.

Record OsrmData : Type := mkOsrmData {
  code : jsstring;
  routes : option (list OsrmRoute)
}.

(** [fetchRoute]: [osrm start end_] is the parsed answer to the request for
    the route from [start] to [end_], [None] when [fetch] or [json()]
    throws. Every failure gives [null]. *)
Definition fetchRoute (osrm : LatLng → LatLng → option OsrmData)
    (start end_ : LatLng) : option (list LatLng) :=
  match osrm start end_ with
  | None => None
  | Some data =>
      if bool_decide (code data = lit "Ok") then
        match routes data with
        | Some (route :: _) =>
            match coordinates route with
            | Some coords => Some (List.map (λ coord, (snd coord, fst coord)) coords)
            | None => None
            end
        | _ => None
        end
      else None
  end.

(** ** CourierView.tsx: request markers *)

(** A marker of [markersRef], by what the effect gives it: position, the
    varying parts of its icon, z-index, popup, and the click handler (set
    when the marker is created for a PENDING request, with the [isOnline]
    of that render). *)
Record Marker : Type := mkMarker {
  latlng : LatLng;
  bgColor : jsstring;
  dimmed : bool;
  enlarged : bool;
  pendingGlyph : bool;
  zIndexOffset : Z;
  popupTitle : jsstring;
  popupAddress : jsstring;
  clickHandler : option bool
}.

(** "Priority: Incoming Offer > Active Delivery > All Available" *)
Definition requestsToShow (st : CourierState) : list DeliveryRequest :=
  match incomingOffer st with
  | Some offer => [offer]
  | None =>
      match activeDelivery st with
      | Some active => [active]
      | None => availableRequests st
      end
  end.

(** [activeDelivery?.id === req.id], [incomingOffer?.id === req.id] *)
Definition hasId (o : option DeliveryRequest) (i : jsstring) : bool :=
  match o with
  | Some r => bool_decide (id r = i)
  | None => false
  end.

(** The position of the marker of [req]. *)
Definition markerCoords (st : CourierState) (req : DeliveryRequest) : LatLng :=
  let hash := getCoordinates (id req) (fst (userLocation st)) (snd (userLocation st)) in
  if hasId (activeDelivery st) (id req)
     && (bool_decide (status req = PICKED_UP) || bool_decide (status req = ARRIVED_DESTINATION))
  then match storedPair (dropoffLat req) (dropoffLng req) with
       | Some c => c
       | None => ((fst hash + 0.01)%float, (snd hash + 0.01)%float)
       end
  else match storedPair (pickupLat req) (pickupLng req) with
       | Some c => c
       | None => hash
       end.

(** The body of [requestsToShow.forEach]. *)
Definition placeMarker (st : CourierState) (markers : gmap jsstring Marker)
    (req : DeliveryRequest) : gmap jsstring Marker :=
  let coords := markerCoords st req in
  if negb (isNum (Some (fst coords))) || negb (isNum (Some (snd coords))) then markers
  else
    let isSelected :=
      bool_decide (selectedId st = Some (id req))
      || hasId (activeDelivery st) (id req) || hasId (incomingOffer st) (id req) in
    let isPending := bool_decide (status req = PENDING) in
    let isIgnored := bool_decide (id req ∈ ignoredOffers st) in
    if isPending && isIgnored && negb (bool_decide (is_Some (activeDelivery st)))
       && negb (bool_decide (is_Some (incomingOffer st)))
    then delete (id req) markers
    else
      let isActive := isOnline st in
      let bg :=
        if bool_decide (is_Some (activeDelivery st)) then lit "bg-green-600"
        else if isActive then (if isPending then lit "bg-gray-900" else lit "bg-green-600")
        else lit "bg-gray-400" in
      let address :=
        if isPending then pickupAddress req
        else if bool_decide (status req = ACCEPTED) then pickupAddress req
        else dropoffAddress req in
      let handler :=
        match markers !! id req with
        | Some old => clickHandler old
        | None => if isPending then Some (isOnline st) else None
        end in
      <[ id req :=
           {| latlng := coords;
              bgColor := bg;
              dimmed := negb isActive;
              enlarged := isSelected;
              pendingGlyph := isPending;
              zIndexOffset := if isSelected then 1000 else 0;
              popupTitle := itemDescription req;
              popupAddress := address;
              clickHandler := handler |} ]> markers.

(** The "Handle Request Markers" effect, once the map exists: the markers
    of requests that are no longer shown are removed, then every request
    shown gets its marker. *)
Definition markersEffect (st : CourierState) (markers : gmap jsstring Marker)
    : gmap jsstring Marker :=
  let shown := requestsToShow st in
  let kept := filter (λ kv, fst kv ∈ (id <$> shown)) markers in
  foldl (placeMarker st) kept shown.

(** ** CustomerView: the order form

    The customer view, in a module of its own: its state cells and its
    fields have the names of cells and fields of the courier view and of
    [DeliveryRequest]. *)

(** The object [handleSubmit] hands to [onRequestCreate]. It has no [id],
    [status], [createdAt], [imageUrl] or [courierId]; as a [DeliveryRequest]
    the first three hold placeholders, which [handleCreateRequest]
    overwrites. *)
Definition requestObject (itemDescription_ pickupAddress_ dropoffAddress_
    recipientName_ recipientPhone_ : jsstring) (paymentMethod_ : PaymentMethod)
    (payer_ : PayerType) (pickupLat_ pickupLng_ dropoffLat_ dropoffLng_ : option float)
    : DeliveryRequest :=
  {| id := [];
     itemDescription := itemDescription_;
     pickupAddress := pickupAddress_;
     dropoffAddress := dropoffAddress_;
     status := PENDING;
     createdAt := 0;
     imageUrl := None;
     courierId := None;
     recipientName := recipientName_;
     recipientPhone := recipientPhone_;
     paymentMethod := paymentMethod_;
     payer := payer_;
     pickupLat := pickupLat_;
     pickupLng := pickupLng_;
     dropoffLat := dropoffLat_;
     dropoffLng := dropoffLng_ |}.

Module Customer.

(** The [formData] state. *)
Record FormData : Type := mkFormData {
  itemDescription : jsstring;
  pickupStreet : jsstring;
  pickupNumber : jsstring;
  pickupNeighborhood : jsstring;
  pickupCity : jsstring;
  dropoffStreet : jsstring;
  dropoffNumber : jsstring;
  dropoffNeighborhood : jsstring;
  dropoffCity : jsstring;
  recipientName : jsstring;
  recipientPhone : jsstring;
  paymentMethod : PaymentMethod;
  payer : PayerType;
  pickupLat : option float;
  pickupLng : option float;
  dropoffLat : option float;
  dropoffLng : option float
}.

(** The form [useState] starts with and [handleSubmit] resets to. *)
Definition emptyForm : FormData :=
  {| itemDescription := [];
     pickupStreet := [];
     pickupNumber := [];
     pickupNeighborhood := [];
     pickupCity := [];
     dropoffStreet := [];
     dropoffNumber := [];
     dropoffNeighborhood := [];
     dropoffCity := [];
     recipientName := [];
     recipientPhone := [];
     paymentMethod := PIX;
     payer := SENDER;
     pickupLat := None;
     pickupLng := None;
     dropoffLat := None;
     dropoffLng := None |}.

(** The text inputs of the form. *)
Inductive Field : Type :=
  | F_itemDescription
  | F_pickupStreet
  | F_pickupNumber
  | F_pickupNeighborhood
  | F_pickupCity
  | F_dropoffStreet
  | F_dropoffNumber
  | F_dropoffNeighborhood
  | F_dropoffCity
  | F_recipientName
  | F_recipientPhone.

(** The [onChange] handlers, [setFormData(prev => ({ ...prev, ... }))]: the
    street, number and city inputs of an address also set the latitude of
    that address to [undefined]; the neighbourhood inputs do not. *)
Definition onChange (fld : Field) (value : jsstring) (prev : FormData) : FormData :=
  match fld with
  | F_itemDescription =>
      {| itemDescription := value;
         pickupStreet := pickupStreet prev;
         pickupNumber := pickupNumber prev;
         pickupNeighborhood := pickupNeighborhood prev;
         pickupCity := pickupCity prev;
         dropoffStreet := dropoffStreet prev;
         dropoffNumber := dropoffNumber prev;
         dropoffNeighborhood := dropoffNeighborhood prev;
         dropoffCity := dropoffCity prev;
         recipientName := recipientName prev;
         recipientPhone := recipientPhone prev;
         paymentMethod := paymentMethod prev;
         payer := payer prev;
         pickupLat := pickupLat prev;
         pickupLng := pickupLng prev;
         dropoffLat := dropoffLat prev;
         dropoffLng := dropoffLng prev |}
  | F_pickupStreet =>
      {| itemDescription := itemDescription prev;
         pickupStreet := value;
         pickupNumber := pickupNumber prev;
         pickupNeighborhood := pickupNeighborhood prev;
         pickupCity := pickupCity prev;
         dropoffStreet := dropoffStreet prev;
         dropoffNumber := dropoffNumber prev;
         dropoffNeighborhood := dropoffNeighborhood prev;
         dropoffCity := dropoffCity prev;
         recipientName := recipientName prev;
         recipientPhone := recipientPhone prev;
         paymentMethod := paymentMethod prev;
         payer := payer prev;
         pickupLat := None;
         pickupLng := pickupLng prev;
         dropoffLat := dropoffLat prev;
         dropoffLng := dropoffLng prev |}
  | F_pickupNumber =>
      {| itemDescription := itemDescription prev;
         pickupStreet := pickupStreet prev;
         pickupNumber := value;
         pickupNeighborhood := pickupNeighborhood prev;
         pickupCity := pickupCity prev;
         dropoffStreet := dropoffStreet prev;
         dropoffNumber := dropoffNumber prev;
         dropoffNeighborhood := dropoffNeighborhood prev;
         dropoffCity := dropoffCity prev;
         recipientName := recipientName prev;
         recipientPhone := recipientPhone prev;
         paymentMethod := paymentMethod prev;
         payer := payer prev;
         pickupLat := None;
         pickupLng := pickupLng prev;
         dropoffLat := dropoffLat prev;
         dropoffLng := dropoffLng prev |}
  | F_pickupNeighborhood =>
      {| itemDescription := itemDescription prev;
         pickupStreet := pickupStreet prev;
         pickupNumber := pickupNumber prev;
         pickupNeighborhood := value;
         pickupCity := pickupCity prev;
         dropoffStreet := dropoffStreet prev;
         dropoffNumber := dropoffNumber prev;
         dropoffNeighborhood := dropoffNeighborhood prev;
         dropoffCity := dropoffCity prev;
         recipientName := recipientName prev;
         recipientPhone := recipientPhone prev;
         paymentMethod := paymentMethod prev;
         payer := payer prev;
         pickupLat := pickupLat prev;
         pickupLng := pickupLng prev;
         dropoffLat := dropoffLat prev;
         dropoffLng := dropoffLng prev |}
  | F_pickupCity =>
      {| itemDescription := itemDescription prev;
         pickupStreet := pickupStreet prev;
         pickupNumber := pickupNumber prev;
         pickupNeighborhood := pickupNeighborhood prev;
         pickupCity := value;
         dropoffStreet := dropoffStreet prev;
         dropoffNumber := dropoffNumber prev;
         dropoffNeighborhood := dropoffNeighborhood prev;
         dropoffCity := dropoffCity prev;
         recipientName := recipientName prev;
         recipientPhone := recipientPhone prev;
         paymentMethod := paymentMethod prev;
         payer := payer prev;
         pickupLat := None;
         pickupLng := pickupLng prev;
         dropoffLat := dropoffLat prev;
         dropoffLng := dropoffLng prev |}
  | F_dropoffStreet =>
      {| itemDescription := itemDescription prev;
         pickupStreet := pickupStreet prev;
         pickupNumber := pickupNumber prev;
         pickupNeighborhood := pickupNeighborhood prev;
         pickupCity := pickupCity prev;
         dropoffStreet := value;
         dropoffNumber := dropoffNumber prev;
         dropoffNeighborhood := dropoffNeighborhood prev;
         dropoffCity := dropoffCity prev;
         recipientName := recipientName prev;
         recipientPhone := recipientPhone prev;
         paymentMethod := paymentMethod prev;
         payer := payer prev;
         pickupLat := pickupLat prev;
         pickupLng := pickupLng prev;
         dropoffLat := None;
         dropoffLng := dropoffLng prev |}
  | F_dropoffNumber =>
      {| itemDescription := itemDescription prev;
         pickupStreet := pickupStreet prev;
         pickupNumber := pickupNumber prev;
         pickupNeighborhood := pickupNeighborhood prev;
         pickupCity := pickupCity prev;
         dropoffStreet := dropoffStreet prev;
         dropoffNumber := value;
         dropoffNeighborhood := dropoffNeighborhood prev;
         dropoffCity := dropoffCity prev;
         recipientName := recipientName prev;
         recipientPhone := recipientPhone prev;
         paymentMethod := paymentMethod prev;
         payer := payer prev;
         pickupLat := pickupLat prev;
         pickupLng := pickupLng prev;
         dropoffLat := None;
         dropoffLng := dropoffLng prev |}
  | F_dropoffNeighborhood =>
      {| itemDescription := itemDescription prev;
         pickupStreet := pickupStreet prev;
         pickupNumber := pickupNumber prev;
         pickupNeighborhood := pickupNeighborhood prev;
         pickupCity := pickupCity prev;
         dropoffStreet := dropoffStreet prev;
         dropoffNumber := dropoffNumber prev;
         dropoffNeighborhood := value;
         dropoffCity := dropoffCity prev;
         recipientName := recipientName prev;
         recipientPhone := recipientPhone prev;
         paymentMethod := paymentMethod prev;
         payer := payer prev;
         pickupLat := pickupLat prev;
         pickupLng := pickupLng prev;
         dropoffLat := dropoffLat prev;
         dropoffLng := dropoffLng prev |}
  | F_dropoffCity =>
      {| itemDescription := itemDescription prev;
         pickupStreet := pickupStreet prev;
         pickupNumber := pickupNumber prev;
         pickupNeighborhood := pickupNeighborhood prev;
         pickupCity := pickupCity prev;
         dropoffStreet := dropoffStreet prev;
         dropoffNumber := dropoffNumber prev;
         dropoffNeighborhood := dropoffNeighborhood prev;
         dropoffCity := value;
         recipientName := recipientName prev;
         recipientPhone := recipientPhone prev;
         paymentMethod := paymentMethod prev;
         payer := payer prev;
         pickupLat := pickupLat prev;
         pickupLng := pickupLng prev;
         dropoffLat := None;
         dropoffLng := dropoffLng prev |}
  | F_recipientName =>
      {| itemDescription := itemDescription prev;
         pickupStreet := pickupStreet prev;
         pickupNumber := pickupNumber prev;
         pickupNeighborhood := pickupNeighborhood prev;
         pickupCity := pickupCity prev;
         dropoffStreet := dropoffStreet prev;
         dropoffNumber := dropoffNumber prev;
         dropoffNeighborhood := dropoffNeighborhood prev;
         dropoffCity := dropoffCity prev;
         recipientName := value;
         recipientPhone := recipientPhone prev;
         paymentMethod := paymentMethod prev;
         payer := payer prev;
         pickupLat := pickupLat prev;
         pickupLng := pickupLng prev;
         dropoffLat := dropoffLat prev;
         dropoffLng := dropoffLng prev |}
  | F_recipientPhone =>
      {| itemDescription := itemDescription prev;
         pickupStreet := pickupStreet prev;
         pickupNumber := pickupNumber prev;
         pickupNeighborhood := pickupNeighborhood prev;
         pickupCity := pickupCity prev;
         dropoffStreet := dropoffStreet prev;
         dropoffNumber := dropoffNumber prev;
         dropoffNeighborhood := dropoffNeighborhood prev;
         dropoffCity := dropoffCity prev;
         recipientName := recipientName prev;
         recipientPhone := value;
         paymentMethod := paymentMethod prev;
         payer := payer prev;
         pickupLat := pickupLat prev;
         pickupLng := pickupLng prev;
         dropoffLat := dropoffLat prev;
         dropoffLng := dropoffLng prev |}
  end.

(** The payment buttons. *)
Definition setPaymentMethod (v : PaymentMethod) (prev : FormData) : FormData :=
  {| itemDescription := itemDescription prev;
     pickupStreet := pickupStreet prev;
     pickupNumber := pickupNumber prev;
     pickupNeighborhood := pickupNeighborhood prev;
     pickupCity := pickupCity prev;
     dropoffStreet := dropoffStreet prev;
     dropoffNumber := dropoffNumber prev;
     dropoffNeighborhood := dropoffNeighborhood prev;
     dropoffCity := dropoffCity prev;
     recipientName := recipientName prev;
     recipientPhone := recipientPhone prev;
     paymentMethod := v;
     payer := payer prev;
     pickupLat := pickupLat prev;
     pickupLng := pickupLng prev;
     dropoffLat := dropoffLat prev;
     dropoffLng := dropoffLng prev |}.

Definition setPayer (v : PayerType) (prev : FormData) : FormData :=
  {| itemDescription := itemDescription prev;
     pickupStreet := pickupStreet prev;
     pickupNumber := pickupNumber prev;
     pickupNeighborhood := pickupNeighborhood prev;
     pickupCity := pickupCity prev;
     dropoffStreet := dropoffStreet prev;
     dropoffNumber := dropoffNumber prev;
     dropoffNeighborhood := dropoffNeighborhood prev;
     dropoffCity := dropoffCity prev;
     recipientName := recipientName prev;
     recipientPhone := recipientPhone prev;
     paymentMethod := paymentMethod prev;
     payer := v;
     pickupLat := pickupLat prev;
     pickupLng := pickupLng prev;
     dropoffLat := dropoffLat prev;
     dropoffLng := dropoffLng prev |}.

(** ['pickup' | 'dropoff'] *)
Inductive Side : Type := pickup | dropoff.

(** [{ ...prev, [type + 'Lat']: lat, [type + 'Lng']: lng }] *)
Definition setCoords (type : Side) (la lo : option float) (prev : FormData) : FormData :=
  match type with
  | pickup =>
      {| itemDescription := itemDescription prev;
         pickupStreet := pickupStreet prev;
         pickupNumber := pickupNumber prev;
         pickupNeighborhood := pickupNeighborhood prev;
         pickupCity := pickupCity prev;
         dropoffStreet := dropoffStreet prev;
         dropoffNumber := dropoffNumber prev;
         dropoffNeighborhood := dropoffNeighborhood prev;
         dropoffCity := dropoffCity prev;
         recipientName := recipientName prev;
         recipientPhone := recipientPhone prev;
         paymentMethod := paymentMethod prev;
         payer := payer prev;
         pickupLat := la;
         pickupLng := lo;
         dropoffLat := dropoffLat prev;
         dropoffLng := dropoffLng prev |}
  | dropoff =>
      {| itemDescription := itemDescription prev;
         pickupStreet := pickupStreet prev;
         pickupNumber := pickupNumber prev;
         pickupNeighborhood := pickupNeighborhood prev;
         pickupCity := pickupCity prev;
         dropoffStreet := dropoffStreet prev;
         dropoffNumber := dropoffNumber prev;
         dropoffNeighborhood := dropoffNeighborhood prev;
         dropoffCity := dropoffCity prev;
         recipientName := recipientName prev;
         recipientPhone := recipientPhone prev;
         paymentMethod := paymentMethod prev;
         payer := payer prev;
         pickupLat := pickupLat prev;
         pickupLng := pickupLng prev;
         dropoffLat := la;
         dropoffLng := lo |}
  end.

Definition street_of (type : Side) (f : FormData) : jsstring :=
  match type with pickup => pickupStreet f | dropoff => dropoffStreet f end.
Definition number_of (type : Side) (f : FormData) : jsstring :=
  match type with pickup => pickupNumber f | dropoff => dropoffNumber f end.
Definition neighborhood_of (type : Side) (f : FormData) : jsstring :=
  match type with pickup => pickupNeighborhood f | dropoff => dropoffNeighborhood f end.
Definition city_of (type : Side) (f : FormData) : jsstring :=
  match type with pickup => pickupCity f | dropoff => dropoffCity f end.

(** [getFullAddress]: [`${street}, ${num} - ${hood}, ${city}`] *)
Definition getFullAddress (type : Side) (f : FormData) : jsstring :=
  street_of type f ++ lit ", " ++ number_of type f ++ lit " - "
  ++ neighborhood_of type f ++ lit ", " ++ city_of type f.

(** The tabs of the customer view. *)
Inductive Tab : Type := home | activity | profile | help.

(** The state cells [handleSubmit] reads and writes. *)
Record State : Type := mkState {
  formData : FormData;
  isSubmitting : bool;
  isCreatingOrder : bool;
  activeTab : Tab
}.

(** How [handleSubmit] ends: with an [alert] and nothing created, or with
    the call of [onRequestCreate]. *)
Inductive SubmitOutcome : Type :=
  | Alerted (message : jsstring)
  | Created (newRequest : DeliveryRequest).

Definition ALERT_FIELDS : jsstring :=
  lit "Por favor, preencha todos os campos de endere" ++ [231%N] ++ lit "o.".
Definition ALERT_PICKUP : jsstring :=
  lit "Endere" ++ [231%N] ++ lit "o de Coleta inv" ++ [225%N] ++ lit "lido ou n"
  ++ [227%N] ++ lit "o encontrado. Verifique Rua e Cidade.".
Definition ALERT_DROPOFF : jsstring :=
  lit "Endere" ++ [231%N] ++ lit "o de Entrega inv" ++ [225%N] ++ lit "lido ou n"
  ++ [227%N] ++ lit "o encontrado. Verifique Rua e Cidade.".

(** The fields the first test of [handleSubmit] wants non-empty. *)
Definition requiredFilled (f : FormData) : bool :=
  nonEmpty (itemDescription f) && nonEmpty (recipientName f) && nonEmpty (recipientPhone f)
  && nonEmpty (pickupStreet f) && nonEmpty (pickupNumber f) && nonEmpty (pickupCity f)
  && nonEmpty (dropoffStreet f) && nonEmpty (dropoffNumber f) && nonEmpty (dropoffCity f).

Section WithParseFloat.

Variable parseFloat : jsstring → float.

(** [handleValidateAddress]: what it hands to [setFormData], as a function
    of the form of that moment ([prev]); the identity where [setFormData]
    is not called. The street, number, neighbourhood and city are those of
    the render the handler belongs to ([f]). The two [isValidating] flags
    only drive a spinner and are left out. *)
Definition handleValidateAddress (type : Side) (f : FormData)
    : Fetch (FormData → FormData) :=
  if negb (nonEmpty (city_of type f)) then ret (λ prev, prev)
  else
    let* result :=
      geocodeAddress parseFloat (street_of type f) (number_of type f)
        (neighborhood_of type f) (city_of type f) in
    match result with
    | Some r => ret (setCoords type (Some (lat r)) (Some (lng r)))
    | None => ret (setCoords type None None)
    end.

(** The "last check" of one address in [handleSubmit]: the stored pair when
    both numbers are truthy, else a geocoding; [None] when that fails. *)
Definition finalCoords (type : Side) (f : FormData)
    : Fetch (option (option float * option float)) :=
  let stored :=
    match type with
    | pickup => (pickupLat f, pickupLng f)
    | dropoff => (dropoffLat f, dropoffLng f)
    end in
  if negb (truthy (fst stored)) || negb (truthy (snd stored)) then
    let* result :=
      geocodeAddress parseFloat (street_of type f) (number_of type f)
        (neighborhood_of type f) (city_of type f) in
    match result with
    | Some r => ret (Some (Some (lat r), Some (lng r)))
    | None => ret None
    end
  else ret (Some stored).

(** [handleSubmit] *)
Definition handleSubmit (st : State) : Fetch (SubmitOutcome * State) :=
  let f := formData st in
  if negb (requiredFilled f) then ret (Alerted ALERT_FIELDS, st)
  else
    let* finalPickup := finalCoords pickup f in
    match finalPickup with
    | None => ret (Alerted ALERT_PICKUP, mkState f false (isCreatingOrder st) (activeTab st))
    | Some (finalPickupLat, finalPickupLng) =>
        let* finalDropoff := finalCoords dropoff f in
        match finalDropoff with
        | None =>
            ret (Alerted ALERT_DROPOFF, mkState f false (isCreatingOrder st) (activeTab st))
        | Some (finalDropoffLat, finalDropoffLng) =>
            ret (Created
                   (requestObject (itemDescription f)
                      (getFullAddress pickup f) (getFullAddress dropoff f)
                      (recipientName f) (recipientPhone f)
                      (paymentMethod f) (payer f)
                      finalPickupLat finalPickupLng finalDropoffLat finalDropoffLng),
                 mkState emptyForm false false activity)
        end
    end.

End WithParseFloat.

(** The effect that refreshes the tracked request when the list changes:
    [requests.find(r => r.id === trackingRequest.id)], kept when found. *)
Definition trackingSync (requests : list DeliveryRequest)
    (trackingRequest : option DeliveryRequest) : option DeliveryRequest :=
  match trackingRequest with
  | Some tracked =>
      match List.find (λ r, bool_decide (id r = id tracked)) requests with
      | Some updated => Some updated
      | None => Some tracked
      end
  | None => None
  end.

(** [requests.find(r => r.status !== DeliveryStatus.DELIVERED)] *)
Definition activeOrder (requests : list DeliveryRequest) : option DeliveryRequest :=
  List.find (λ r, negb (bool_decide (status r = DELIVERED))) requests.

End Customer.

(** ** geminiService.ts *)

(** A call that returns a value or throws. *)
Inductive Outcome (A : Type) : Type :=
  | Returned (a : A)
  | Threw.
Arguments Returned {A} a.
Arguments Threw {A}.

(** [try { body } catch (error) { handler }] *)
Definition tryCatch {A} (body handler : Outcome A) : Outcome A :=
  match body with
  | Returned a => Returned a
  | Threw => handler
  end.

(** The answer of [ai.models.generateContent], as far as it is read; every
    level may be missing. *)
Record InlineData : Type := mkInlineData {
  mimeType : option jsstring;
  data : option jsstring
}.
Record Part : Type := mkPart { inlineData : option InlineData }.
Record Content : Type := mkContent { parts : option (list Part) }.
Record Candidate : Type := mkCandidate { content : option Content }.
Record ImageResponse : Type := mkImageResponse { candidates : option (list Candidate) }.

(** A value in a template literal: [undefined] is written out. *)
Definition inTemplate (s : option jsstring) : jsstring :=
  match s with
  | Some v => v
  | None => lit "undefined"
  end.

(** [response.candidates?.[0]?.content?.parts || []] *)
Definition responseParts (response : ImageResponse) : list Part :=
  match candidates response with
  | Some (first :: _) =>
      match content first with
      | Some c => match parts c with Some ps => ps | None => [] end
      | None => []
      end
  | _ => []
  end.

(** [part.inlineData && part.inlineData.data] *)
Definition hasData (part : Part) : bool :=
  match inlineData part with
  | Some d => match data d with Some v => nonEmpty v | None => false end
  | None => false
  end.

(** [`data:${part.inlineData.mimeType};base64,${part.inlineData.data}`] *)
Definition dataUrl (part : Part) : jsstring :=
  match inlineData part with
  | Some d => lit "data:" ++ inTemplate (mimeType d) ++ lit ";base64," ++ inTemplate (data d)
  | None => []
  end.

(** [generateItemImage]; [answer] is what [generateContent] resolves with,
    [None] when it rejects. The error is logged and thrown again. *)
Definition generateItemImage (answer : option ImageResponse) : Outcome (option jsstring) :=
  tryCatch
    (match answer with
     | Some response => Returned (dataUrl <$> List.find hasData (responseParts response))
     | None => Threw
     end)
    Threw.

(** What [chat.sendMessage] does: it resolves with a response whose [text]
    may be missing, or it rejects. *)
Inductive Reply : Type :=
  | Resolved (text : option jsstring)
  | Rejected.

Definition NO_TEXT : jsstring :=
  lit "Desculpe, n" ++ [227%N] ++ lit "o consegui processar sua resposta.".
Definition CHAT_ERROR : jsstring := lit "Ocorreu um erro ao conectar com o assistente.".

(** [sendMessageToChat]: [result.text || "..."] inside [try], a fixed text
    from [catch]. *)
Definition sendMessageToChat (reply : Reply) : Outcome jsstring :=
  tryCatch
    (match reply with
     | Resolved t =>
         Returned (match t with
                   | Some v => if nonEmpty v then v else NO_TEXT
                   | None => NO_TEXT
                   end)
     | Rejected => Threw
     end)
    (Returned CHAT_ERROR).

(** ** ChatBot.tsx *)

Module Chat.

Inductive Role : Type := user | model.

#[export] Instance Role_eq_dec : EqDecision Role.
Proof. solve_decision. Defined.

Record ChatMessage : Type := mkMessage {
  role : Role;
  text : jsstring;
  timestamp : Z
}.

(** The state of the component. [session] tells whether
    [chatSessionRef.current] is set; [awaiting] is the part of [handleSend]
    suspended at its [await], with the message it sent. *)
Record State : Type := mkState {
  messages : list ChatMessage;
  inputText : jsstring;
  isLoading : bool;
  session : bool;
  awaiting : option jsstring
}.

Definition GREETING : jsstring :=
  lit "Ol" ++ [225%N] ++ lit "! Sou o assistente virtual da EntregaFast. Como posso ajudar voc"
  ++ [234%N] ++ lit " hoje?".

Definition APOLOGY : jsstring :=
  lit "Desculpe, tive um problema ao processar sua mensagem.".

(** The first render, and the effect that creates the session. *)
Definition initial (now : Z) : State :=
  mkState [mkMessage model GREETING now] [] false false None.

Definition mountEffect (st : State) : State :=
  mkState (messages st) (inputText st) (isLoading st) true (awaiting st).

Definition setInputText (v : jsstring) (st : State) : State :=
  mkState (messages st) v (isLoading st) (session st) (awaiting st).

(** [handleSend] up to its [await]. *)
Definition handleSend (now : Z) (st : State) : State :=
  if negb (nonEmpty (trim (inputText st))) || negb (session st) || isLoading st
  then st
  else mkState (messages st ++ [mkMessage user (inputText st) now]) [] true
               (session st) (Some (inputText st)).

(** [handleSend] from its [await] on: the [try] appends the answer, the
    [catch] an apology, [finally] ends the loading. *)
Definition handleSend_resume (reply : Reply) (now : Z) (st : State) : State :=
  match awaiting st with
  | Some _ =>
      let shown := match sendMessageToChat reply with
                   | Returned responseText => responseText
                   | Threw => APOLOGY
                   end in
      mkState (messages st ++ [mkMessage model shown now]) (inputText st) false
              (session st) None
  | None => st
  end.

(** [handleKeyPress]: [e.key === 'Enter' && !e.shiftKey] *)
Definition handleKeyPress (key : jsstring) (shiftKey : bool) (now : Z) (st : State) : State :=
  if bool_decide (key = lit "Enter") && negb shiftKey then handleSend now st else st.

(** What can happen to the mounted component. *)
Inductive Event : Type :=
  | Typed (v : jsstring)
  | SendClicked (now : Z)
  | KeyPressed (key : jsstring) (shiftKey : bool) (now : Z)
  | Answered (reply : Reply) (now : Z).

Definition step (st : State) (ev : Event) : State :=
  match ev with
  | Typed v => setInputText v st
  | SendClicked now => handleSend now st
  | KeyPressed key shiftKey now => handleKeyPress key shiftKey now st
  | Answered reply now => handleSend_resume reply now st
  end.

Definition run (evs : list Event) (st : State) : State := foldl step st evs.

End Chat.

(** ** More sample data *)

(** The initial list after request ["1"] has been delivered. *)
Definition oneDelivered : list DeliveryRequest :=
  [ sampleRequest (lit "1") DELIVERED 0 None None None None;
    secondRequest PENDING 0 ].

(** A service that answers with one route of two points, as [lng, lat]. *)
Definition twoPointRoute : LatLng → LatLng → option OsrmData :=
  λ _ _, Some (mkOsrmData (lit "Ok")
                 (Some [mkOsrmRoute (Some [(-53.8, -29.7); (-53.9, -29.6)]%float)])).


(** A marker left over from request ["2"] is removed when request ["1"] is
    the offer. *)
Definition oldMarker : Marker :=
  {| latlng := (DEFAULT_LAT, DEFAULT_LNG);
     bgColor := lit "bg-gray-900";
     dimmed := false;
     enlarged := false;
     pendingGlyph := true;
     zIndexOffset := 0;
     popupTitle := lit "Documentos Importantes";
     popupAddress := lit "Rua do Acampamento, 300";
     clickHandler := Some true |}.

(** A filled form without coordinates, and the same with both pairs
    validated. *)
Definition filledForm : Customer.FormData :=
  {| Customer.itemDescription := lit "Documentos";
     Customer.pickupStreet := lit "Rua X";
     Customer.pickupNumber := lit "100";
     Customer.pickupNeighborhood := lit "Centro";
     Customer.pickupCity := lit "Y";
     Customer.dropoffStreet := lit "Rua Z";
     Customer.dropoffNumber := lit "7";
     Customer.dropoffNeighborhood := [];
     Customer.dropoffCity := lit "Y";
     Customer.recipientName := lit "Maria";
     Customer.recipientPhone := lit "9999";
     Customer.paymentMethod := CASH;
     Customer.payer := RECIPIENT;
     Customer.pickupLat := None;
     Customer.pickupLng := None;
     Customer.dropoffLat := None;
     Customer.dropoffLng := None |}.

Definition validatedForm : Customer.FormData :=
  Customer.setCoords Customer.dropoff (Some 2%float) (Some 2%float)
    (Customer.setCoords Customer.pickup (Some 1%float) (Some 1%float) filledForm).

Definition formState (f : Customer.FormData) : Customer.State :=
  Customer.mkState f false true Customer.home.

(** An answer whose first candidate has a text part, a part with empty
    data and then an image, and whose second candidate has another image. *)
Definition imageAnswer : ImageResponse :=
  mkImageResponse
    (Some [mkCandidate
             (Some (mkContent
                (Some [mkPart None;
                       mkPart (Some (mkInlineData (Some (lit "image/png")) (Some [])));
                       mkPart (Some (mkInlineData (Some (lit "image/png")) (Some (lit "AAAA"))))])));
           mkCandidate
             (Some (mkContent
                (Some [mkPart (Some (mkInlineData (Some (lit "image/jpeg"))
                                       (Some (lit "BBBB"))))])))]).

(** A short session of the chat: a blank message, a question, a second
    press while the answer is awaited, and the answers. *)
Definition chatSession : list Chat.Event :=
  [Chat.Typed (lit "   "); Chat.SendClicked 1;
   Chat.Typed (lit "Oi"); Chat.KeyPressed (lit "Enter") false 2;
   Chat.Typed (lit "?"); Chat.SendClicked 3;
   Chat.Answered Rejected 4;
   Chat.SendClicked 5; Chat.Answered (Resolved (Some [])) 6].

(** ** Predicates for the properties of the rest of the code *)

(** The actions other than a click on the list. *)
Definition automatic (a : Action) : Prop :=
  match a with
  | Pick _ => False
  | _ => True
  end.

(** There is no offer while a delivery is active or the courier is
    offline. *)
Definition idle_offer (st : CourierState) : Prop :=
  (is_Some (activeDelivery st) → incomingOffer st = None) ∧
  (isOnline st = false → incomingOffer st = None).


(** The address whose latitude an input clears when it is edited. *)
Definition invalidates (fld : Customer.Field) : option Customer.Side :=
  match fld with
  | Customer.F_pickupStreet | Customer.F_pickupNumber | Customer.F_pickupCity =>
      Some Customer.pickup
  | Customer.F_dropoffStreet | Customer.F_dropoffNumber | Customer.F_dropoffCity =>
      Some Customer.dropoff
  | _ => None
  end.

(** The coordinate pair a form holds for an address, and the same for a
    request. *)
Definition formCoords (type : Customer.Side) (f : Customer.FormData)
    : option float * option float :=
  match type with
  | Customer.pickup => (Customer.pickupLat f, Customer.pickupLng f)
  | Customer.dropoff => (Customer.dropoffLat f, Customer.dropoffLng f)
  end.

Definition requestCoords (type : Customer.Side) (r : DeliveryRequest)
    : option float * option float :=
  match type with
  | Customer.pickup => (pickupLat r, pickupLng r)
  | Customer.dropoff => (dropoffLat r, dropoffLng r)
  end.

Definition otherSide (type : Customer.Side) : Customer.Side :=
  match type with
  | Customer.pickup => Customer.dropoff
  | Customer.dropoff => Customer.pickup
  end.

(** Two forms with the same texts and payment choices. *)
Definition sameInputs (f f' : Customer.FormData) : Prop :=
  Customer.itemDescription f' = Customer.itemDescription f ∧
  Customer.pickupStreet f' = Customer.pickupStreet f ∧
  Customer.pickupNumber f' = Customer.pickupNumber f ∧
  Customer.pickupNeighborhood f' = Customer.pickupNeighborhood f ∧
  Customer.pickupCity f' = Customer.pickupCity f ∧
  Customer.dropoffStreet f' = Customer.dropoffStreet f ∧
  Customer.dropoffNumber f' = Customer.dropoffNumber f ∧
  Customer.dropoffNeighborhood f' = Customer.dropoffNeighborhood f ∧
  Customer.dropoffCity f' = Customer.dropoffCity f ∧
  Customer.recipientName f' = Customer.recipientName f ∧
  Customer.recipientPhone f' = Customer.recipientPhone f ∧
  Customer.paymentMethod f' = Customer.paymentMethod f ∧
  Customer.payer f' = Customer.payer f.

(** The operations of [App] on the list of requests, and a sequence of
    them. *)
Inductive AppOp : Type :=
  | Create (rnd : jsstring) (now : Z) (newRequest : DeliveryRequest)
  | Update (i : jsstring) (s : DeliveryStatus).

Definition applyOp (reqs : list DeliveryRequest) (op : AppOp) : list DeliveryRequest :=
  match op with
  | Create rnd now newRequest => handleCreateRequest rnd now newRequest reqs
  | Update i s => handleUpdateStatus i s reqs
  end.

(** The readings of the clock in a sequence of operations, in order. *)
Definition clockReadings (ops : list AppOp) : list Z :=
  omap (λ op, match op with Create _ now _ => Some now | Update _ _ => None end) ops.

(** The roles of a conversation of [n] completed exchanges after the
    greeting, with one more message of the user when an answer is awaited. *)
Fixpoint dialogue (n : nat) (waiting : bool) : list Chat.Role :=
  match n with
  | O => if waiting then [Chat.user] else []
  | S n' => Chat.user :: Chat.model :: dialogue n' waiting
  end.

(** The state of the chat is in order: the roles alternate after the
    greeting, an answer is awaited exactly while loading, no message is
    empty and no message of the user is blank. *)
Definition orderly (st : Chat.State) : Prop :=
  (∃ n, Chat.role <$> Chat.messages st = Chat.model :: dialogue n (Chat.isLoading st)) ∧
  (Chat.isLoading st = true ↔ is_Some (Chat.awaiting st)) ∧
  Forall (λ m, Chat.text m ≠ []) (Chat.messages st) ∧
  Forall (λ m, Chat.role m = Chat.user → trim (Chat.text m) ≠ []) (Chat.messages st).

(** * Properties *)

(** ** The status update ([handleUpdateStatus]) *)

Lemma handleUpdateStatus_length i s prev :
  length (handleUpdateStatus i s prev) = length prev.
Proof. unfold handleUpdateStatus. apply length_map. Qed.

Lemma with_status_same s r : same_but_status r (with_status s r).
Proof. repeat split. Qed.

Lemma handleUpdateStatus_lookup i s prev k :
  handleUpdateStatus i s prev !! k =
  (λ req, if decide (id req = i) then with_status s req else req) <$> prev !! k.
Proof. unfold handleUpdateStatus. apply list_lookup_fmap. Qed.

Lemma handleUpdateStatus_absent i s prev :
  (∀ r, r ∈ prev → id r ≠ i) → handleUpdateStatus i s prev = prev.
Proof.
  induction prev as [|r prev IH]; intros Hno; [done|].
  cbn. rewrite decide_False by (apply Hno; left).
  f_equal. apply IH. intros r' Hr'. apply Hno. by right.
Qed.

(** C9. [handleUpdateStatus] is total (it reports no error), keeps the
    length and the order of the list, and position by position: a request
    whose id is not the given one is returned as it is; a request whose id
    is the given one gets the given status and keeps every other field.
    When no request has the given id the list is returned identical. *)
Theorem handleUpdateStatus_frame (i : jsstring) (s : DeliveryStatus)
    (prev : list DeliveryRequest) :
  length (handleUpdateStatus i s prev) = length prev ∧
  (∀ k r, prev !! k = Some r →
     ∃ r', handleUpdateStatus i s prev !! k = Some r' ∧
           same_but_status r r' ∧
           (id r = i → status r' = s) ∧
           (id r ≠ i → r' = r)) ∧
  ((∀ r, r ∈ prev → id r ≠ i) → handleUpdateStatus i s prev = prev).
Proof.
  split; [apply handleUpdateStatus_length|].
  split; [|apply handleUpdateStatus_absent].
  intros k r Hk. rewrite handleUpdateStatus_lookup, Hk. cbn.
  destruct (decide (id r = i)) as [Heq|Hne].
  - exists (with_status s r). repeat split; try done.
  - exists r. repeat split; try done.
Qed.

(** The update of request ["2"] in the initial list: the first request is
    untouched, the second only changes its status; with the unknown id
    ["9"] the list comes back as it was. *)
Lemma handleUpdateStatus_frame_witness :
  (∃ r', handleUpdateStatus (lit "2") DELIVERED (initialRequests 0 0) !! 1%nat = Some r' ∧
         same_but_status (secondRequest PENDING 0) r' ∧
         status r' = DELIVERED) ∧
  handleUpdateStatus (lit "2") DELIVERED (initialRequests 0 0) !! 0%nat
    = Some (sampleRequest (lit "1") PENDING 0 None None None None) ∧
  handleUpdateStatus (lit "9") DELIVERED (initialRequests 0 0) = initialRequests 0 0.
Proof.
  pose proof (handleUpdateStatus_frame (lit "2") DELIVERED (initialRequests 0 0))
    as (_ & Hlookup & _).
  pose proof (handleUpdateStatus_frame (lit "9") DELIVERED (initialRequests 0 0))
    as (_ & _ & Habsent).
  split; [|split].
  - destruct (Hlookup 1%nat (secondRequest PENDING 0) eq_refl)
      as (r' & Hk & Hsame & Hst & _).
    exists r'. split; [exact Hk|]. split; [exact Hsame|]. apply Hst. reflexivity.
  - destruct (Hlookup 0%nat (sampleRequest (lit "1") PENDING 0 None None None None) eq_refl)
      as (r' & Hk & _ & _ & Hother).
    rewrite Hk. f_equal. apply Hother. discriminate.
  - apply Habsent. intros r Hr.
    apply elem_of_cons in Hr as [->|Hr]; [discriminate|].
    apply elem_of_cons in Hr as [->|Hr]; [discriminate|].
    by apply elem_of_nil in Hr.
Defined.

(** No request of the initial list has id ["9"]: the list comes back as it
    was. *)
Example handleUpdateStatus_unknown_id :
  handleUpdateStatus (lit "9") DELIVERED (initialRequests 0 0) = initialRequests 0 0.
Proof. reflexivity. Qed.

Lemma handleUpdateStatus_Forall2 (P : DeliveryRequest → DeliveryRequest → Prop) i s prev :
  (∀ r, r ∈ prev → P r (if decide (id r = i) then with_status s r else r)) →
  Forall2 P prev (handleUpdateStatus i s prev).
Proof.
  induction prev as [|r prev IH]; intros HP; cbn; constructor.
  - apply HP. left.
  - apply IH. intros r' Hr'. apply HP. by right.
Qed.

Lemma Forall2_diag {A} (P : A → A → Prop) (l : list A) :
  (∀ x, P x x) → Forall2 P l l.
Proof. intros HP. induction l; constructor; auto. Qed.

(** With unique ids, the id names the request. *)
Lemma unique_id (l : list DeliveryRequest) (a r : DeliveryRequest) :
  NoDup (id <$> l) → a ∈ l → r ∈ l → id r = id a → r = a.
Proof.
  induction l as [|x l IH]; intros Hnd Ha Hr Hid; [by apply elem_of_nil in Ha|].
  rewrite fmap_cons in Hnd. apply NoDup_cons in Hnd as [Hx Hnd].
  apply elem_of_cons in Ha as [->|Ha]; apply elem_of_cons in Hr as [->|Hr]; try done.
  - exfalso. apply Hx. rewrite <- Hid. apply list_elem_of_fmap. eauto.
  - exfalso. apply Hx. rewrite Hid. apply list_elem_of_fmap. eauto.
  - by apply IH.
Qed.

(** What [List.find] returns is the first element that passes the test. *)
Lemma find_first {A} (f : A → bool) (l : list A) :
  match List.find f l with
  | Some x => ∃ before after, l = before ++ x :: after ∧ f x = true ∧
                              Forall (λ y, f y = false) before
  | None => Forall (λ y, f y = false) l
  end.
Proof.
  induction l as [|a l IH]; cbn; [constructor|].
  destruct (f a) eqn:Hfa.
  - exists [], l. repeat split; [done|constructor].
  - destruct (List.find f l) as [x|].
    + destruct IH as (before & after & -> & Hfx & Hbefore).
      exists (a :: before), after. repeat split; [done|by constructor].
    + by constructor.
Qed.

Lemma find_elem_of {A} (f : A → bool) (l : list A) (x : A) :
  List.find f l = Some x → x ∈ l ∧ f x = true.
Proof.
  intros H. apply find_some in H as [Hin Hf]. split; [|done].
  by apply list_elem_of_In.
Qed.

(** ** The lifecycle *)

Lemma requests_activeDeliveryEffect st :
  requests (activeDeliveryEffect st) = requests st ∧
  activeDelivery (activeDeliveryEffect st) = List.find isActive (requests st).
Proof. unfold activeDeliveryEffect. by destruct (List.find isActive (requests st)). Qed.

Lemma requests_offerEffect st :
  requests (offerEffect st) = requests st ∧
  incomingOffer (offerEffect st) =
    if negb (isOnline st) || bool_decide (is_Some (activeDelivery st)) then None
    else List.find (isOfferable (ignoredOffers st)) (requests st).
Proof.
  unfold offerEffect.
  destruct (negb (isOnline st) || bool_decide (is_Some (activeDelivery st))); [done|].
  by destruct (List.find _ (requests st)).
Qed.

Lemma requests_handleProgressAction st :
  requests (handleProgressAction st) =
  match activeDelivery st with
  | Some active =>
      match progressTarget (status active) with
      | Some s => handleUpdateStatus (id active) s (requests st)
      | None => requests st
      end
  | None => requests st
  end.
Proof.
  unfold handleProgressAction. destruct (activeDelivery st) as [a|]; [|done].
  by destruct (status a).
Qed.

Lemma progressTarget_successor s s' : progressTarget s = Some s' → successor s = Some s'.
Proof. by destruct s. Qed.

Lemma isOfferable_pending ign r : isOfferable ign r = true → status r = PENDING.
Proof.
  unfold isOfferable. intros H. apply andb_prop in H as [H _].
  by apply bool_decide_eq_true in H.
Qed.

Lemma update_unique_legal (l : list DeliveryRequest) (a : DeliveryRequest) (s : DeliveryStatus) :
  NoDup (id <$> l) → a ∈ l → successor (status a) = Some s →
  Forall2 legal_step l (handleUpdateStatus (id a) s l).
Proof.
  intros Hnd Ha Hs. apply handleUpdateStatus_Forall2. intros r Hr.
  destruct (decide (id r = id a)) as [Heq|Hne]; [|by left].
  assert (r = a) as -> by (by apply (unique_id l)).
  right. by split.
Qed.

(** With unique ids the update for the id of a request of the list
    changes the position of that request only. *)
Lemma update_unique_insert (l : list DeliveryRequest) (k : nat) (a : DeliveryRequest)
    (s : DeliveryStatus) :
  NoDup (id <$> l) → l !! k = Some a →
  handleUpdateStatus (id a) s l = <[k := with_status s a]> l.
Proof.
  intros Hnd Hk. apply list_eq. intros j. rewrite handleUpdateStatus_lookup.
  destruct (decide (k = j)) as [<-|Hne].
  - rewrite Hk, list_lookup_insert_eq by (by eapply lookup_lt_Some). cbn.
    by rewrite decide_True.
  - rewrite list_lookup_insert_ne by done.
    destruct (l !! j) as [r|] eqn:Hj; [|done]. cbn.
    rewrite decide_False; [done|]. intros Hid. apply Hne.
    apply (NoDup_lookup (id <$> l) k j (id a)); [done| |].
    + by rewrite list_lookup_fmap, Hk.
    + rewrite list_lookup_fmap, Hj. cbn. by rewrite Hid.
Qed.

Lemma update_unique_one_step (l : list DeliveryRequest) (a : DeliveryRequest)
    (s : DeliveryStatus) :
  NoDup (id <$> l) → a ∈ l → successor (status a) = Some s →
  one_step l (handleUpdateStatus (id a) s l).
Proof.
  intros Hnd Ha Hs. apply list_elem_of_lookup_1 in Ha as [k Hk].
  right. exists k, a, s. split; [done|]. split; [done|].
  by apply update_unique_insert.
Qed.

(** C1 (amended). [handleUpdateStatus] itself accepts every pair of old
    and new status: it never fails and gives the request with the given id
    the given status. The linear order PENDING, ACCEPTED, PICKED_UP,
    ARRIVED_DESTINATION, DELIVERED is kept by the courier view's handlers:
    when the ids of the list are unique, [handleProgressAction] run on the
    state the active-delivery effect leaves, and [handleAcceptOffer] run on
    the state the offer effect leaves, either leave the list as it is or
    move the request at one position from its status to the exact
    successor (keeping its other fields) and leave the request at every
    other position as it is. *)
Theorem lifecycle_linear (st : CourierState) :
  (∀ i s k r, requests st !! k = Some r → id r = i →
     handleUpdateStatus i s (requests st) !! k = Some (with_status s r)) ∧
  (NoDup (id <$> requests st) →
     one_step (requests st) (requests (handleProgressAction (activeDeliveryEffect st))) ∧
     one_step (requests st) (requests (handleAcceptOffer (offerEffect st))) ∧
     Forall2 legal_step (requests st)
       (requests (handleProgressAction (activeDeliveryEffect st))) ∧
     Forall2 legal_step (requests st)
       (requests (handleAcceptOffer (offerEffect st)))).
Proof.
  split.
  { intros i s k r Hk Hid. rewrite handleUpdateStatus_lookup, Hk. cbn.
    by rewrite decide_True. }
  intros Hnd.
  assert (∀ a s, a ∈ requests st → successor (status a) = Some s →
            one_step (requests st) (handleUpdateStatus (id a) s (requests st)) ∧
            Forall2 legal_step (requests st) (handleUpdateStatus (id a) s (requests st)))
    as Hupdate.
  { intros a s Ha Hs. split; [by apply update_unique_one_step|by apply update_unique_legal]. }
  assert (one_step (requests st) (requests st) ∧
          Forall2 legal_step (requests st) (requests st)) as Hsame.
  { split; [by left|apply Forall2_diag; by left]. }
  assert ((one_step (requests st) (requests (handleProgressAction (activeDeliveryEffect st))) ∧
           Forall2 legal_step (requests st)
             (requests (handleProgressAction (activeDeliveryEffect st)))) ∧
          (one_step (requests st) (requests (handleAcceptOffer (offerEffect st))) ∧
           Forall2 legal_step (requests st)
             (requests (handleAcceptOffer (offerEffect st))))) as [[H1 H2] [H3 H4]];
    [|done].
  split.
  - rewrite requests_handleProgressAction.
    destruct (requests_activeDeliveryEffect st) as [-> ->].
    destruct (List.find isActive (requests st)) as [a|] eqn:Hfind; [|done].
    apply find_elem_of in Hfind as [Ha _].
    destruct (progressTarget (status a)) as [s|] eqn:Ht; [|done].
    apply Hupdate; auto using progressTarget_successor.
  - unfold handleAcceptOffer.
    destruct (requests_offerEffect st) as [Hreq ->].
    destruct (negb (isOnline st) || bool_decide (is_Some (activeDelivery st)));
      [by rewrite Hreq|].
    destruct (List.find _ (requests st)) as [o|] eqn:Hfind; [|by rewrite Hreq].
    cbn. rewrite Hreq.
    apply find_elem_of in Hfind as [Ho Hoff].
    apply Hupdate; [done|]. by rewrite (isOfferable_pending _ _ Hoff).
Qed.

(** Over the initial list: accepting the first offer moves the request at
    position 0 to ACCEPTED and nothing else, and the update gives request
    ["1"] whatever status is asked for. *)
Lemma lifecycle_linear_witness :
  one_step (initialRequests 0 0)
    (requests (handleAcceptOffer (offerEffect (initialCourier (initialRequests 0 0))))) ∧
  handleUpdateStatus (lit "1") DELIVERED (initialRequests 0 0) !! 0%nat
    = Some (sampleRequest (lit "1") DELIVERED 0 None None None None).
Proof.
  pose proof (lifecycle_linear (initialCourier (initialRequests 0 0))) as [Hany Hlinear].
  split.
  - apply Hlinear. apply (bool_decide_unpack _). vm_compute. reflexivity.
  - exact (Hany (lit "1") DELIVERED 0%nat
             (sampleRequest (lit "1") PENDING 0 None None None None) eq_refl eq_refl).
Defined.

(** A full run over the initial list: the offer for request ["1"] is
    accepted, then the progress button is pressed three times; request
    ["2"] is then offered. *)
Example full_run_statuses :
  let st0 := settle (initialCourier (initialRequests 0 0)) in
  (status <$> requests (run [Accept] st0),
   status <$> requests (run [Accept; Progress] st0),
   status <$> requests (run [Accept; Progress; Progress] st0),
   status <$> requests (run [Accept; Progress; Progress; Progress] st0)) =
  ([ACCEPTED; PENDING], [PICKED_UP; PENDING],
   [ARRIVED_DESTINATION; PENDING], [DELIVERED; PENDING]) ∧
  (id <$> incomingOffer (run [Accept; Progress; Progress; Progress] st0)) = Some (lit "2").
Proof. vm_compute. split; reflexivity. Qed.

(** C1 (counterexample). Asked to take request ["1"] from PENDING straight
    to DELIVERED, which is not the successor of PENDING, the update does
    not fail and does not leave the status as it was. *)
Lemma update_accepts_illegal_transition :
  successor PENDING ≠ Some DELIVERED ∧
  status <$> initialRequests 0 0 = [PENDING; PENDING] ∧
  status <$> handleUpdateStatus (lit "1") DELIVERED (initialRequests 0 0) = [DELIVERED; PENDING].
Proof. split; [discriminate|]. split; reflexivity. Qed.

(** *** Runs of the courier view *)

Lemma handleUpdateStatus_ids i s prev : id <$> handleUpdateStatus i s prev = id <$> prev.
Proof.
  unfold handleUpdateStatus. induction prev as [|r prev IH]; [done|].
  cbn. rewrite <- IH. by destruct (decide (id r = i)).
Qed.

(** What the offer effect sets, reading one state and writing another. *)
Lemma offerWrites_spec read st :
  requests (offerWrites read st) = requests st ∧
  isOnline (offerWrites read st) = isOnline st ∧
  ignoredOffers (offerWrites read st) = ignoredOffers st ∧
  userLocation (offerWrites read st) = userLocation st ∧
  activeDelivery (offerWrites read st) = activeDelivery st ∧
  incomingOffer (offerWrites read st) =
    if negb (isOnline read) || bool_decide (is_Some (activeDelivery read))
    then None
    else List.find (isOfferable (ignoredOffers read)) (requests read).
Proof.
  unfold offerWrites.
  destruct (negb (isOnline read) || bool_decide (is_Some (activeDelivery read))); [done|].
  by destruct (List.find (isOfferable (ignoredOffers read)) (requests read)).
Qed.

Lemma offerEffect_spec st :
  requests (offerEffect st) = requests st ∧
  isOnline (offerEffect st) = isOnline st ∧
  ignoredOffers (offerEffect st) = ignoredOffers st ∧
  userLocation (offerEffect st) = userLocation st ∧
  activeDelivery (offerEffect st) = activeDelivery st ∧
  incomingOffer (offerEffect st) =
    if negb (isOnline st) || bool_decide (is_Some (activeDelivery st))
    then None
    else List.find (isOfferable (ignoredOffers st)) (requests st).
Proof. exact (offerWrites_spec st st). Qed.

Lemma activeDeliveryEffect_spec st :
  requests (activeDeliveryEffect st) = requests st ∧
  isOnline (activeDeliveryEffect st) = isOnline st ∧
  ignoredOffers (activeDeliveryEffect st) = ignoredOffers st ∧
  userLocation (activeDeliveryEffect st) = userLocation st ∧
  activeDelivery (activeDeliveryEffect st) = List.find isActive (requests st).
Proof. unfold activeDeliveryEffect. by destruct (List.find isActive (requests st)). Qed.

(** The render after a commit of both effects: the active delivery is the
    one of the list, the offer is computed from the active delivery of the
    render before. *)
Lemma commit_spec st :
  requests (commit st) = requests st ∧
  isOnline (commit st) = isOnline st ∧
  ignoredOffers (commit st) = ignoredOffers st ∧
  userLocation (commit st) = userLocation st ∧
  activeDelivery (commit st) = List.find isActive (requests st) ∧
  incomingOffer (commit st) =
    if negb (isOnline st) || bool_decide (is_Some (activeDelivery st))
    then None
    else List.find (isOfferable (ignoredOffers st)) (requests st).
Proof.
  unfold commit.
  destruct (offerWrites_spec st (activeDeliveryEffect st)) as (-> & -> & -> & -> & -> & ->).
  by destruct (activeDeliveryEffect_spec st) as (-> & -> & -> & -> & ->).
Qed.

(** What the view comes to rest on. *)
Lemma settle_spec st :
  requests (settle st) = requests st ∧
  isOnline (settle st) = isOnline st ∧
  ignoredOffers (settle st) = ignoredOffers st ∧
  userLocation (settle st) = userLocation st ∧
  activeDelivery (settle st) = List.find isActive (requests st) ∧
  incomingOffer (settle st) =
    if negb (isOnline st) || bool_decide (is_Some (List.find isActive (requests st)))
    then None
    else List.find (isOfferable (ignoredOffers st)) (requests st).
Proof.
  unfold settle.
  destruct (offerEffect_spec (commit st)) as (-> & -> & -> & -> & -> & ->).
  by destruct (commit_spec st) as (-> & -> & -> & -> & -> & _).
Qed.

Lemma settle_requests st : requests (settle st) = requests st.
Proof. by destruct (settle_spec st) as (-> & _). Qed.

(** The offer effect, run where the active delivery is the one of the
    list, leaves a consistent state. *)
Lemma offerEffect_consistent st :
  NoDup (id <$> requests st) → activeDelivery st = List.find isActive (requests st) →
  consistent (offerEffect st).
Proof.
  intros Hnd Hact. unfold consistent.
  destruct (offerEffect_spec st) as (-> & _ & _ & _ & -> & ->).
  split; [done|]. split; [done|]. intros offer.
  destruct (negb _ || _); [done|].
  intros Hfind. apply find_elem_of in Hfind as [Hin Hoff].
  split; [done|]. by apply (isOfferable_pending _ _ Hoff).
Qed.

Lemma settle_consistent st : NoDup (id <$> requests st) → consistent (settle st).
Proof.
  intros Hnd. unfold settle.
  destruct (commit_spec st) as (Hreq & _ & _ & _ & Hact & _).
  apply offerEffect_consistent; rewrite Hreq; done.
Qed.

Lemma handleAcceptOffer_ids st : id <$> requests (handleAcceptOffer st) = id <$> requests st.
Proof.
  unfold handleAcceptOffer. destruct (incomingOffer st); [|done].
  cbn. apply handleUpdateStatus_ids.
Qed.

Lemma handleProgressAction_ids st :
  id <$> requests (handleProgressAction st) = id <$> requests st.
Proof.
  rewrite requests_handleProgressAction.
  destruct (activeDelivery st) as [a|]; [|done].
  destruct (progressTarget (status a)); [|done].
  apply handleUpdateStatus_ids.
Qed.

(** Every action is a legal step on each request, and keeps the state
    consistent. *)
Lemma perform_legal a st :
  consistent st →
  Forall2 legal_step (requests st) (requests (perform a st)) ∧ consistent (perform a st).
Proof.
  intros Hc. pose proof Hc as (Hnd & Hact & Hoffer).
  assert (Forall2 legal_step (requests st) (requests st)) as Hsame
    by (apply Forall2_diag; by left).
  destruct a; cbn [perform].
  - destruct (incomingOffer st) as [offer|] eqn:Ho; [|by split].
    rewrite settle_requests. split.
    + unfold handleAcceptOffer. rewrite Ho. cbn.
      destruct (Hoffer offer eq_refl) as [Hin Hpending].
      apply update_unique_legal; [done|done|by rewrite Hpending].
    + apply settle_consistent. by rewrite handleAcceptOffer_ids.
  - destruct (incomingOffer st) as [offer|] eqn:Ho; [|by split].
    assert (requests (handleDeclineOffer st) = requests st ∧
            activeDelivery (handleDeclineOffer st) = activeDelivery st) as [Hreq Hkeep].
    { unfold handleDeclineOffer. by rewrite Ho. }
    destruct (offerEffect_spec (handleDeclineOffer st)) as (-> & _).
    rewrite Hreq. split; [done|].
    apply offerEffect_consistent; rewrite Hreq; [done|by rewrite Hkeep].
  - destruct (activeDelivery st) as [a|] eqn:Ha; [|by split].
    destruct (progressTarget (status a)) as [s|] eqn:Ht; [|by split].
    rewrite settle_requests. split.
    + rewrite requests_handleProgressAction, Ha, Ht.
      symmetry in Hact. apply find_elem_of in Hact as [Hin _].
      apply update_unique_legal; auto using progressTarget_successor.
    + apply settle_consistent. by rewrite handleProgressAction_ids.
  - destruct (offerEffect_spec (setIsOnline (negb (isOnline st)) st)) as (-> & _).
    split; [done|]. by apply offerEffect_consistent.
  - destruct (_ && _); [|by split].
    destruct (availableRequests st !! k) as [req|] eqn:Hk; [|by split].
    split; [done|]. split; [done|]. split; [done|].
    cbn. intros offer [= <-].
    apply list_elem_of_lookup_2 in Hk. unfold availableRequests in Hk.
    apply list_elem_of_In, filter_In in Hk as [Hin Hp].
    split; [by apply list_elem_of_In|]. by apply bool_decide_eq_true in Hp.
Qed.

(** Along every run of courier actions from a mounted view over a list
    with unique ids, each request only moves through a chain of exact
    successor steps; its other fields never change. *)
Theorem run_linear (actions : list Action) (st : CourierState) :
  NoDup (id <$> requests st) →
  Forall2 (rtc legal_step) (requests st) (requests (run actions (settle st))).
Proof.
  intros Hnd. rewrite <- (settle_requests st) at 1.
  pose proof (settle_consistent st Hnd) as Hc.
  generalize dependent (settle st). clear st Hnd.
  induction actions as [|a actions IH]; intros st Hc.
  - apply Forall2_diag. intros r. apply rtc_refl.
  - cbn [run foldl]. destruct (perform_legal a st Hc) as [Hstep Hc'].
    specialize (IH (perform a st) Hc').
    eapply Forall2_trans; [|exact Hstep|exact IH].
    intros x y z Hxy Hyz. by eapply rtc_l.
Qed.

(** A chain of successor steps never goes back: the rank of the status
    does not decrease, and the other fields are kept. *)
Lemma legal_chain_monotone r r' :
  rtc legal_step r r' → (rank (status r) ≤ rank (status r'))%nat ∧ same_but_status r r'.
Proof.
  induction 1 as [r|r r1 r' Hstep _ [IHle IHsame]].
  - split; [done|]. repeat split.
  - destruct Hstep as [->|[Hsucc Heq]]; [done|].
    assert (same_but_status r r1) as Hsame1 by (rewrite Heq; apply with_status_same).
    split.
    + etrans; [|exact IHle].
      destruct (status r), (status r1); try discriminate Hsucc; cbn; lia.
    + destruct IHsame as (?&?&?&?&?&?&?&?&?&?&?&?&?&?&?).
      destruct Hsame1 as (?&?&?&?&?&?&?&?&?&?&?&?&?&?&?).
      repeat split; congruence.
Qed.


(** ** Accepting an offer *)

(** C2 (amended). [handleAcceptOffer] makes no status check and has no
    error result. With an offer current it gives every request that has the
    offer's id the status ACCEPTED, whatever status is stored, and clears
    the offer; without one it changes nothing. A second call right after
    the first therefore changes nothing. An offer placed by the offer
    effect is a PENDING request of the list, so that accepting it is the
    PENDING to ACCEPTED transition. *)
Theorem accept_offer_unchecked (st : CourierState) :
  (incomingOffer st = None → handleAcceptOffer st = st) ∧
  (∀ offer, incomingOffer st = Some offer →
     requests (handleAcceptOffer st) = handleUpdateStatus (id offer) ACCEPTED (requests st) ∧
     incomingOffer (handleAcceptOffer st) = None ∧
     ∀ k r, requests st !! k = Some r → id r = id offer →
            requests (handleAcceptOffer st) !! k = Some (with_status ACCEPTED r)) ∧
  handleAcceptOffer (handleAcceptOffer st) = handleAcceptOffer st ∧
  (∀ offer, incomingOffer (offerEffect st) = Some offer →
     offer ∈ requests st ∧ status offer = PENDING).
Proof.
  split; [|split; [|split]].
  - intros H. unfold handleAcceptOffer. by rewrite H.
  - intros offer H. unfold handleAcceptOffer. rewrite H. cbn.
    repeat split. intros k r Hk Hid.
    rewrite handleUpdateStatus_lookup, Hk. cbn. by rewrite decide_True.
  - assert (incomingOffer (handleAcceptOffer st) = None) as Hcleared.
    { unfold handleAcceptOffer. by destruct (incomingOffer st) eqn:H. }
    unfold handleAcceptOffer at 1. by rewrite Hcleared.
  - intros offer. destruct (requests_offerEffect st) as [_ ->].
    destruct (negb (isOnline st) || bool_decide (is_Some (activeDelivery st))); [done|].
    intros Hfind. apply find_elem_of in Hfind as [Hin Hoff].
    split; [done|]. by apply (isOfferable_pending (ignoredOffers st)).
Qed.

(** Accepting the offer the offer effect placed over the initial list;
    accepting with no offer. *)
Lemma accept_offer_unchecked_witness :
  (let st := offerEffect (initialCourier (initialRequests 0 0)) in
   status <$> requests (handleAcceptOffer st) = [ACCEPTED; PENDING] ∧
   incomingOffer (handleAcceptOffer st) = None) ∧
  handleAcceptOffer (initialCourier (initialRequests 0 0)) = initialCourier (initialRequests 0 0) ∧
  status (sampleRequest (lit "1") PENDING 0 None None None None) = PENDING.
Proof.
  cbv zeta.
  pose proof (accept_offer_unchecked (offerEffect (initialCourier (initialRequests 0 0))))
    as (_ & Hsome & _ & _).
  pose proof (accept_offer_unchecked (initialCourier (initialRequests 0 0)))
    as (Hnone & _ & _ & Hplaced).
  split; [|split].
  - destruct (Hsome (sampleRequest (lit "1") PENDING 0 None None None None) eq_refl)
      as (Hreq & Hoffer & _).
    split; [|exact Hoffer]. rewrite Hreq. reflexivity.
  - exact (Hnone eq_refl).
  - exact (proj2 (Hplaced (sampleRequest (lit "1") PENDING 0 None None None None) eq_refl)).
Defined.

(** C2 (counterexample). The stored status is PICKED_UP, not PENDING, when
    accept is called: the call is not refused, the state changes and the
    request is put back to ACCEPTED. *)
Lemma accept_on_taken_request :
  status <$> requests staleOffer = [PICKED_UP] ∧
  status <$> requests (handleAcceptOffer staleOffer) = [ACCEPTED] ∧
  handleAcceptOffer staleOffer ≠ staleOffer.
Proof.
  split; [reflexivity|]. split; [reflexivity|].
  intros H. apply (f_equal (λ st, status <$> requests st)) in H. discriminate H.
Qed.

(** ** Offer selection *)

(** [handleCreateRequest] puts the new request in front: with a clock that
    does not run backwards the list stays ordered newest first. *)
Lemma handleCreateRequest_newestFirst rnd now newRequest prev :
  newestFirst prev → Forall (λ r, createdAt r ≤ now) prev →
  newestFirst (handleCreateRequest rnd now newRequest prev).
Proof. intros Hs Hnow. unfold handleCreateRequest. by constructor. Qed.

Lemma handleUpdateStatus_newestFirst i s prev :
  newestFirst prev → newestFirst (handleUpdateStatus i s prev).
Proof.
  unfold newestFirst, handleUpdateStatus. intros Hs.
  refine (StronglySorted_fmap _ (λ a b, createdAt b ≤ createdAt a) _ prev _ Hs).
  intros a b Hab. by destruct (decide (id a = i)), (decide (id b = i)).
Qed.

(** C3 (amended). The offer effect gives no offer when the courier is
    offline or has an active delivery. Otherwise the offer is the first
    request, in the order of the list, whose status is PENDING and whose id
    is not in the ignored set (none when there is no such request); the
    state holds at most one offer. The order of the list is no order of
    creation times. On a list ordered newest first the offer is, among the
    eligible requests, one created last; [handleCreateRequest] puts the new
    request in front, which keeps a list newest first when the clock
    reading is not earlier than the creation times of the list. The two
    requests [App] starts with stand as they are written: over them the
    offer is request ["1"], whatever the two clock readings, and when the
    reading of request ["1"] is the earlier one that list is not ordered
    newest first. *)
Theorem offer_is_first_eligible (st : CourierState) :
  (isOnline st = false ∨ is_Some (activeDelivery st) →
     incomingOffer (offerEffect st) = None) ∧
  (isOnline st = true → activeDelivery st = None →
     match incomingOffer (offerEffect st) with
     | Some offer =>
         ∃ before after, requests st = before ++ offer :: after ∧
           status offer = PENDING ∧ (id offer ∉ ignoredOffers st) ∧
           Forall (λ r, ¬ (status r = PENDING ∧ id r ∉ ignoredOffers st)) before
     | None =>
         Forall (λ r, ¬ (status r = PENDING ∧ id r ∉ ignoredOffers st)) (requests st)
     end) ∧
  (isOnline st = true → activeDelivery st = None → newestFirst (requests st) →
     ∀ offer r, incomingOffer (offerEffect st) = Some offer →
       r ∈ requests st → status r = PENDING → id r ∉ ignoredOffers st →
       createdAt r ≤ createdAt offer) ∧
  (∀ t1 t2 : Z,
     ∃ offer, incomingOffer (offerEffect (initialCourier (initialRequests t1 t2))) = Some offer ∧
              id offer = lit "1" ∧ createdAt offer = t1 ∧
              (t1 < t2 → ¬ newestFirst (initialRequests t1 t2))) ∧
  (∀ rnd now newRequest prev,
     ∃ r, handleCreateRequest rnd now newRequest prev = r :: prev ∧
          id r = rnd ∧ createdAt r = now ∧ status r = PENDING ∧
          (newestFirst prev → Forall (λ r', createdAt r' ≤ now) prev →
           newestFirst (r :: prev))).
Proof.
  assert (∀ ign r, isOfferable ign r = true ↔ status r = PENDING ∧ id r ∉ ign) as Hoff.
  { intros ign r. unfold isOfferable.
    rewrite andb_true_iff, negb_true_iff, bool_decide_eq_true, bool_decide_eq_false.
    done. }
  assert (∀ ign l, Forall (λ r, isOfferable ign r = false) l →
            Forall (λ r, ¬ (status r = PENDING ∧ id r ∉ ign)) l) as Hnone.
  { intros ign l Hl. eapply Forall_impl; [exact Hl|].
    intros r Hr Hc. apply Hoff in Hc. congruence. }
  assert (∀ t1 t2 : Z,
     ∃ offer, incomingOffer (offerEffect (initialCourier (initialRequests t1 t2))) = Some offer ∧
              id offer = lit "1" ∧ createdAt offer = t1 ∧
              (t1 < t2 → ¬ newestFirst (initialRequests t1 t2))) as Hinitial.
  { intros t1 t2. exists (sampleRequest (lit "1") PENDING t1 None None None None).
    split; [|split; [reflexivity|split; [reflexivity|]]].
    - destruct (requests_offerEffect (initialCourier (initialRequests t1 t2))) as [_ ->].
      assert (isOfferable ∅ (sampleRequest (lit "1") PENDING t1 None None None None) = true)
        as Hfirst by (apply Hoff; split; [reflexivity|apply not_elem_of_empty]).
      cbn [initialCourier isOnline activeDelivery ignoredOffers requests initialRequests
           List.find negb].
      rewrite bool_decide_false by (by intros [? ?]). cbn [orb]. by rewrite Hfirst.
    - intros Hlt Hs. unfold newestFirst, initialRequests in Hs.
      apply StronglySorted_inv in Hs as [_ Hall].
      apply Forall_cons in Hall as [Hle _]. cbn in Hle. lia. }
  assert (∀ rnd now newRequest prev,
     ∃ r, handleCreateRequest rnd now newRequest prev = r :: prev ∧
          id r = rnd ∧ createdAt r = now ∧ status r = PENDING ∧
          (newestFirst prev → Forall (λ r', createdAt r' ≤ now) prev →
           newestFirst (r :: prev))) as Hcreate.
  { intros rnd now newRequest prev. eexists. split; [reflexivity|].
    repeat split. intros Hs Hle.
    exact (handleCreateRequest_newestFirst rnd now newRequest prev Hs Hle). }
  destruct (requests_offerEffect st) as [_ ->].
  split; [|split; [|split; [|split; [exact Hinitial|exact Hcreate]]]].
  - intros [->|Hact]; [done|].
    rewrite (bool_decide_eq_true_2 _ Hact). by rewrite orb_true_r.
  - intros -> ->. cbn.
    pose proof (find_first (isOfferable (ignoredOffers st)) (requests st)) as Hf.
    destruct (List.find _ (requests st)) as [offer|].
    + destruct Hf as (before & after & Heq & Ho & Hbefore).
      apply Hoff in Ho as [Hs Hi]. exists before, after. auto.
    + auto.
  - intros -> -> Hsorted offer r. cbn. intros Hfind Hr Hs Hi.
    pose proof (find_first (isOfferable (ignoredOffers st)) (requests st)) as Hf.
    rewrite Hfind in Hf. destruct Hf as (before & after & Heq & Ho & Hbefore).
    rewrite Heq in Hr, Hsorted.
    apply elem_of_app in Hr as [Hr|Hr].
    + exfalso. rewrite Forall_forall in Hbefore. specialize (Hbefore r Hr).
      assert (isOfferable (ignoredOffers st) r = true) by (by apply Hoff). congruence.
    + apply elem_of_cons in Hr as [->|Hr]; [lia|].
      apply StronglySorted_app_1_r, StronglySorted_cons in Hsorted as [Hall _].
      rewrite Forall_forall in Hall. by apply Hall.
Qed.

(** With request ["1"] declined, the offer over the initial list is
    request ["2"]; over the two created requests, which are ordered newest
    first, the offer is not older than the other eligible request. *)
Lemma offer_is_first_eligible_witness :
  (let st := handleDeclineOffer (offerEffect (initialCourier (initialRequests 0 0))) in
   ∃ before after offer,
     incomingOffer (offerEffect st) = Some offer ∧
     requests st = before ++ offer :: after ∧ id offer = lit "2" ∧
     Forall (λ r, ¬ (status r = PENDING ∧ id r ∉ ignoredOffers st)) before) ∧
  newestFirst twoCreated ∧
  createdAt (sampleRequest (lit "a") PENDING 1 None None None None) ≤
  createdAt (sampleRequest (lit "b") PENDING 2 None None None None).
Proof.
  assert (newestFirst twoCreated) as Hsorted.
  { unfold newestFirst, twoCreated, handleCreateRequest.
    repeat (constructor; cbn); lia. }
  split; [|split; [exact Hsorted|]].
  - cbv zeta.
    pose proof (proj1 (proj2 (offer_is_first_eligible
      (handleDeclineOffer (offerEffect (initialCourier (initialRequests 0 0))))))
      eq_refl eq_refl) as H.
    change (incomingOffer (offerEffect
              (handleDeclineOffer (offerEffect (initialCourier (initialRequests 0 0))))))
      with (Some (secondRequest PENDING 0)) in H.
    destruct H as (before & after & Heq & _ & _ & Hbefore).
    exists before, after, (secondRequest PENDING 0).
    split; [reflexivity|]. split; [exact Heq|]. split; [reflexivity|exact Hbefore].
  - apply (proj1 (proj2 (proj2 (offer_is_first_eligible (initialCourier twoCreated))))
             eq_refl eq_refl Hsorted
             (sampleRequest (lit "b") PENDING 2 None None None None)
             (sampleRequest (lit "a") PENDING 1 None None None None)).
    + reflexivity.
    + right. left.
    + reflexivity.
    + cbn. apply not_elem_of_empty.
Defined.

(** C3 (counterexample). After two creations the offer is the request
    created last, although the request created first is PENDING and not
    ignored: the scan is not oldest first. *)
Lemma offer_is_not_oldest :
  let st := initialCourier twoCreated in
  ∃ offer older,
    incomingOffer (offerEffect st) = Some offer ∧
    older ∈ requests st ∧ status older = PENDING ∧ (id older ∉ ignoredOffers st) ∧
    createdAt older < createdAt offer.
Proof.
  exists (sampleRequest (lit "b") PENDING 2 None None None None),
         (sampleRequest (lit "a") PENDING 1 None None None None).
  split; [reflexivity|]. split; [|split; [reflexivity|split; [|reflexivity]]].
  - right. left.
  - cbn. apply not_elem_of_empty.
Qed.

(** ** The fallback route *)

(** The example of the specification: from (0,0) to (1,2) the latitude
    delta 1 is not larger than the longitude delta 2, the corner is (0,2). *)
Example fallback_0_0_1_2 :
  generateSmartRouteFallback (0, 0)%float (1, 2)%float
  = [(0, 0); (0, 2); (1, 2)]%float.
Proof. reflexivity. Qed.

Example fallback_0_0_2_1 :
  generateSmartRouteFallback (0, 0)%float (2, 1)%float
  = [(0, 0); (2, 0); (2, 1)]%float.
Proof. reflexivity. Qed.

(** Equal deltas: the comparison is strict, the longitude leg comes first. *)
Example fallback_tie :
  generateSmartRouteFallback (0, 0)%float (1, 1)%float
  = [(0, 0); (0, 1); (1, 1)]%float.
Proof. reflexivity. Qed.

(** C4. The fallback route is the three points origin, corner,
    destination, where the corner is (destination.lat, origin.lng) when
    |origin.lat - destination.lat| > |origin.lng - destination.lng| (as
    computed on numbers) and (origin.lat, destination.lng) otherwise. It is
    never empty, starts at the origin and ends at the destination.
    [drawRoute] takes it when the routing service gave [null] or an empty
    list, and only then. *)
Theorem fallback_route_shape (origin destination : LatLng) :
  let latDelta := PrimFloat.abs (fst origin - fst destination)%float in
  let lngDelta := PrimFloat.abs (snd origin - snd destination)%float in
  let corner := if (lngDelta <? latDelta)%float
                then (fst destination, snd origin)
                else (fst origin, snd destination) in
  let route := generateSmartRouteFallback origin destination in
  route = [origin; corner; destination] ∧
  route ≠ [] ∧
  head route = Some origin ∧
  last route = Some destination ∧
  drawRoute_points None origin destination = route ∧
  drawRoute_points (Some []) origin destination = route ∧
  (∀ p ps, drawRoute_points (Some (p :: ps)) origin destination = p :: ps).
Proof.
  destruct origin as [startLat startLng], destination as [endLat endLng]. cbn.
  destruct (PrimFloat.abs (startLng - endLng) <? PrimFloat.abs (startLat - endLat))%float;
    repeat split; discriminate.
Qed.

(** ** Legs and coordinate accessors *)

Lemma storedPair_zero lat lng :
  isZero lat = true ∨ isZero lng = true → storedPair lat lng = None.
Proof.
  unfold storedPair, isZero. destruct lat as [a|], lng as [b|]; try done.
  unfold truthy. intros [H|H]; rewrite H; [done|]. by rewrite andb_false_r.
Qed.




(** C10 (amended). A stored pair one of whose numbers is exactly 0 is
    treated as absent by every accessor (the test is truthiness), and the
    accessor's own fallback is taken instead of the stored values:
    - pickup: [getPickupCoords] and [getTargetCoordinates] (on the way to
      the pickup) give the id-hash coordinate around the user's location;
      the customer view gives the user's location minus 0.005;
    - dropoff: [getDropoffCoords] gives the pickup coordinate of the
      request (stored or id-hash) plus 0.01; [getTargetCoordinates] (after
      pickup) gives the id-hash coordinate plus 0.01; the customer view
      gives the user's location plus 0.005. *)
Theorem zero_coordinate_is_absent (uL : LatLng) (req : DeliveryRequest) :
  let hash := getCoordinates (id req) (fst uL) (snd uL) in
  let located := isNum (Some (fst uL)) && isNum (Some (snd uL)) in
  (isZero (pickupLat req) = true ∨ isZero (pickupLng req) = true →
     getPickupCoords uL req = hash ∧
     trackingPickup uL req = ((fst uL - 0.005)%float, (snd uL - 0.005)%float) ∧
     (located = true → status req ≠ PICKED_UP → status req ≠ ARRIVED_DESTINATION →
        getTargetCoordinates uL req = Some hash)) ∧
  (isZero (dropoffLat req) = true ∨ isZero (dropoffLng req) = true →
     getDropoffCoords uL req =
       ((fst (getPickupCoords uL req) + 0.01)%float,
        (snd (getPickupCoords uL req) + 0.01)%float) ∧
     trackingDropoff uL req = ((fst uL + 0.005)%float, (snd uL + 0.005)%float) ∧
     (located = true → status req = PICKED_UP ∨ status req = ARRIVED_DESTINATION →
        getTargetCoordinates uL req =
          Some ((fst hash + 0.01)%float, (snd hash + 0.01)%float))).
Proof.
  cbv zeta. split; intros Hz; apply storedPair_zero in Hz.
  - unfold getPickupCoords, trackingPickup, getTargetCoordinates. rewrite Hz.
    repeat split. intros Hloc Hp Ha. apply andb_prop in Hloc as [-> ->]. cbn.
    by destruct (status req).
  - unfold getDropoffCoords, trackingDropoff, getTargetCoordinates. rewrite Hz.
    repeat split. intros Hloc Hs. apply andb_prop in Hloc as [-> ->]. cbn.
    by destruct Hs as [-> | ->].
Qed.

(** The accessors on [zeroDropoffLat] and on a request whose stored pickup
    latitude is 0, seen from the default location. *)
Lemma zero_coordinate_is_absent_witness :
  let uL := (DEFAULT_LAT, DEFAULT_LNG) in
  let zeroPickupLat :=
    sampleRequest (lit "1") ACCEPTED 0 (Some 0%float) (Some 7%float) None None in
  let hash := getCoordinates (lit "1") DEFAULT_LAT DEFAULT_LNG in
  getDropoffCoords uL zeroDropoffLat = ((10 + 0.01)%float, (10 + 0.01)%float) ∧
  trackingDropoff uL zeroDropoffLat =
    ((DEFAULT_LAT + 0.005)%float, (DEFAULT_LNG + 0.005)%float) ∧
  getTargetCoordinates uL (with_status PICKED_UP zeroDropoffLat) =
    Some ((fst hash + 0.01)%float, (snd hash + 0.01)%float) ∧
  getPickupCoords uL zeroPickupLat = hash ∧
  getTargetCoordinates uL zeroPickupLat = Some hash.
Proof.
  cbv zeta.
  pose proof (zero_coordinate_is_absent (DEFAULT_LAT, DEFAULT_LNG) zeroDropoffLat)
    as [_ Hdrop].
  destruct (Hdrop (or_introl eq_refl)) as (Hd & Ht & _).
  pose proof (zero_coordinate_is_absent (DEFAULT_LAT, DEFAULT_LNG)
    (with_status PICKED_UP zeroDropoffLat)) as [_ Hdrop'].
  destruct (Hdrop' (or_introl eq_refl)) as (_ & _ & Htarget).
  pose proof (zero_coordinate_is_absent (DEFAULT_LAT, DEFAULT_LNG)
    (sampleRequest (lit "1") ACCEPTED 0 (Some 0%float) (Some 7%float) None None))
    as [Hpick _].
  destruct (Hpick (or_introl eq_refl)) as (Hp & _ & Htarget').
  split; [exact Hd|]. split; [exact Ht|].
  split; [exact (Htarget eq_refl (or_introl eq_refl))|].
  split; [exact Hp|]. apply Htarget'; [reflexivity|discriminate|discriminate].
Defined.

(** C10 (counterexample). With the stored dropoff latitude exactly 0,
    [getDropoffCoords] gives the stored pickup point plus 0.01 and the
    customer view the user's location plus 0.005: neither is the id-hash
    coordinate of the request, shifted or not. *)
Lemma zero_dropoff_not_id_hash :
  let uL := (DEFAULT_LAT, DEFAULT_LNG) in
  let hash := getCoordinates (id zeroDropoffLat) (fst uL) (snd uL) in
  dropoffLat zeroDropoffLat = Some 0%float ∧
  getDropoffCoords uL zeroDropoffLat = ((10 + 0.01)%float, (10 + 0.01)%float) ∧
  (fst (getDropoffCoords uL zeroDropoffLat) =? fst hash)%float = false ∧
  (fst (getDropoffCoords uL zeroDropoffLat) =? fst hash + 0.01)%float = false ∧
  (fst (trackingDropoff uL zeroDropoffLat) =? fst hash)%float = false ∧
  (fst (trackingDropoff uL zeroDropoffLat) =? fst hash + 0.01)%float = false.
Proof. vm_compute. repeat split. Qed.

(** ** The position simulation *)

(** The example of the specification: half way from (0,0) to (10,10). *)
Example interpolate_half :
  interpolate (0, 0)%float (10, 10)%float 0.5%float = (5, 5)%float.
Proof. reflexivity. Qed.

(** *** Binary64 facts used below *)










(** From 0, the 200th tick is the first whose sum exceeds 1 (the binary64
    sum is 1.0000000000000007): the counter is back at 0 on a leg in
    progress and stays at 1 on the arrived leg. *)
Example two_hundred_ticks :
  Nat.iter 199 (tickProgress PICKED_UP) 0%float = 0.99500000000000077%float ∧
  Nat.iter 200 (tickProgress PICKED_UP) 0%float = 0%float ∧
  Nat.iter 200 (tickProgress ARRIVED_DESTINATION) 0%float = 1%float ∧
  Nat.iter 500 (tickProgress ARRIVED_DESTINATION) 0%float = 1%float.
Proof. vm_compute. repeat split. Qed.

(** ** The geocoding cascade *)

Example trim_spaces : trim (lit "  Rua X ") = lit "Rua X".
Proof. reflexivity. Qed.

Example trim_blank : trim (lit "   ") = [].
Proof. reflexivity. Qed.

(** The examples of the specification. *)
Example geocode_exact_first :
  let '(r, net) := geocodeAddress noCoordinates (lit "Rua X") (lit "100") [] (lit "Y") knowsAll in
  precision <$> r = Some exact ∧
  queries net = [lit "Rua X, 100, Y, Rio Grande do Sul, Brasil"].
Proof. vm_compute. split; reflexivity. Qed.

Example geocode_city_only :
  let '(r, net) := geocodeAddress noCoordinates [] [] [] (lit "Y") knowsAll in
  precision <$> r = Some city ∧
  queries net = [lit "Y, Rio Grande do Sul, Brasil"].
Proof. vm_compute. split; reflexivity. Qed.

Example geocode_all_fail :
  let '(r, net) :=
    geocodeAddress noCoordinates (lit "Rua X") (lit "100") (lit "Centro") (lit "Y") knowsNone in
  r = None ∧
  queries net = [lit "Rua X, 100, Y, Rio Grande do Sul, Brasil";
                 lit "Rua X, Y, Rio Grande do Sul, Brasil";
                 lit "Centro, Y, Rio Grande do Sul, Brasil";
                 lit "Y, Rio Grande do Sul, Brasil"].
Proof. vm_compute. split; reflexivity. Qed.

Lemma geocodeAddress_cascade parseFloat street_ number neighborhood_ city_ net :
  geocodeAddress parseFloat street_ number neighborhood_ city_ net =
  cascade parseFloat
    (applicableTiers (trim street_) (trim number) (trim neighborhood_) (trim city_)) net.
Proof.
  unfold geocodeAddress, applicableTiers. cbv zeta.
  generalize (trim street_) (trim number) (trim neighborhood_) (trim city_).
  intros cs cn ch cc. cbn [List.filter tierApplies].
  destruct (nonEmpty cs), (nonEmpty cn), (nonEmpty ch), (nonEmpty cc);
    cbn [andb List.map cascade tierQuery];
    unfold bind, doFetch, ret; cbn [service queries];
    repeat (match goal with
            | |- context [match service ?n ?l ?q with _ => _ end] =>
                destruct (service n l q)
            end; cbn [service queries]);
    reflexivity.
Qed.

(** Without a city nothing is asked and nothing is found. *)
Lemma geocodeAddress_no_city parseFloat street_ number neighborhood_ city_ net :
  trim city_ = [] →
  geocodeAddress parseFloat street_ number neighborhood_ city_ net = (None, net).
Proof.
  intros Hcity. rewrite geocodeAddress_cascade. unfold applicableTiers.
  rewrite Hcity. cbn [List.filter tierApplies nonEmpty].
  rewrite !andb_false_r. reflexivity.
Qed.

(** The cascade asks its queries in order, stops at the first answer, and
    gives that answer with the precision of its tier; it fails when every
    query has been asked without an answer. *)
Lemma cascade_spec parseFloat tiers net :
  ∃ asked,
    asked `prefix_of` tiers ∧
    queries (snd (cascade parseFloat tiers net)) = queries net ++ (snd <$> asked) ∧
    service (snd (cascade parseFloat tiers net)) = service net ∧
    match fst (cascade parseFloat tiers net) with
    | Some r =>
        ∃ before p query result,
          asked = before ++ [(p, query)] ∧
          service net (queries net ++ (snd <$> before)) query = Some result ∧
          r = toResult parseFloat p result
    | None => asked = tiers
    end ∧
    ∀ (k : nat) p query,
      (k < length asked - 1)%nat ∨ fst (cascade parseFloat tiers net) = None →
      asked !! k = Some (p, query) →
      service net (queries net ++ (snd <$> take k asked)) query = None.
Proof.
  revert net. induction tiers as [|[p query] rest IH]; intros net.
  - exists []. cbn. rewrite app_nil_r. repeat split; [done|]. by intros [|?] ? ? ?.
  - cbn [cascade]. unfold bind, doFetch. cbn [service queries].
    destruct (service net (queries net) query) as [result|] eqn:Hq.
    + exists [(p, query)]. cbn. repeat split.
      * by apply prefix_cons, prefix_nil.
      * exists [], p, query, result. cbn. by rewrite app_nil_r.
      * intros k p' query' [Hk|Hk]; [lia|done].
    + specialize (IH (mkNet (service net) (queries net ++ [query]))).
      destruct IH as (asked & Hpre & Hlog & Hsvc & Hres & Hnone).
      cbn [service queries] in *.
      exists ((p, query) :: asked). repeat split.
      * by apply prefix_cons.
      * rewrite Hlog, fmap_cons. cbn. by rewrite <- app_assoc.
      * done.
      * destruct (fst (cascade parseFloat rest _)) as [r|].
        -- destruct Hres as (before & p' & query' & result & -> & Hans & ->).
           exists ((p, query) :: before), p', query', result.
           repeat split. rewrite fmap_cons. cbn.
           by rewrite <- app_assoc in Hans.
        -- by rewrite Hres.
      * intros [|k] p' query' Hk Hlookup.
        -- injection Hlookup as <- <-. cbn. by rewrite app_nil_r.
        -- cbn in Hlookup. cbn [take].
           rewrite fmap_cons, cons_middle, app_assoc. cbn [snd].
           apply (Hnone k p'); [|done].
           destruct Hk as [Hk|Hk]; [left; cbn in Hk; lia|by right].
Qed.

Lemma nonEmpty_true (s : jsstring) : s ≠ [] → nonEmpty s = true.
Proof. by destruct s. Qed.

(** C6. With an empty city field [geocodeAddress] gives [null] and leaves
    the service untouched: no query is issued. *)
Theorem geocode_empty_city (parseFloat : jsstring → float)
    (street_ number neighborhood_ : jsstring) (net : Net) :
  geocodeAddress parseFloat street_ number neighborhood_ [] net = (None, net).
Proof. by apply geocodeAddress_no_city. Qed.

(** A city field of white space only is no city either. *)
Example geocode_blank_city :
  geocodeAddress noCoordinates (lit "Rua X") (lit "100") (lit "Centro") (lit "  ") knowsAll
  = (None, knowsAll).
Proof. by apply geocodeAddress_no_city. Qed.

(** C5 (amended). The fields are trimmed first, and a tier needs its
    fields to be non-empty after trimming. The tiers that are not skipped
    are tried in the strict order exact, street, neighborhood, city; the
    queries issued are an initial part of theirs, in order; the first query
    that is answered ends the cascade and gives the result the precision of
    its tier, every query before it having had no answer; when none is
    answered all have been issued and the result is [null]. In particular,
    when street, number and city are non-empty after trimming, the
    exact-tier query (trimmed street, number, city) is the first query
    issued, and when it is answered it is the only one and the precision is
    [exact]. *)
Theorem geocode_tiers_in_order (parseFloat : jsstring → float)
    (street_ number neighborhood_ city_ : jsstring) (net : Net) :
  let cleanStreet := trim street_ in
  let cleanNum := trim number in
  let cleanNeighborhood := trim neighborhood_ in
  let cleanCity := trim city_ in
  let tiers := applicableTiers cleanStreet cleanNum cleanNeighborhood cleanCity in
  let out := geocodeAddress parseFloat street_ number neighborhood_ city_ net in
  let exactQuery := cleanStreet ++ comma ++ cleanNum ++ comma ++ cleanCity ++ RS_BRASIL in
  out = cascade parseFloat tiers net ∧
  (fst <$> tiers) `sublist_of` [exact; street; neighborhood; city] ∧
  (∃ asked,
     asked `prefix_of` tiers ∧
     queries (snd out) = queries net ++ (snd <$> asked) ∧
     match fst out with
     | Some r =>
         ∃ before p query result,
           asked = before ++ [(p, query)] ∧
           service net (queries net ++ (snd <$> before)) query = Some result ∧
           r = toResult parseFloat p result ∧ precision r = p
     | None => asked = tiers
     end ∧
     ∀ (k : nat) p query, (k < length asked - 1)%nat ∨ fst out = None →
       asked !! k = Some (p, query) →
       service net (queries net ++ (snd <$> take k asked)) query = None) ∧
  (cleanStreet ≠ [] → cleanNum ≠ [] → cleanCity ≠ [] →
     (∃ rest, tiers = (exact, exactQuery) :: rest) ∧
     (∃ later, queries (snd out) = queries net ++ exactQuery :: later) ∧
     ∀ result, service net (queries net) exactQuery = Some result →
       out = (Some (toResult parseFloat exact result),
              mkNet (service net) (queries net ++ [exactQuery])) ∧
       precision (toResult parseFloat exact result) = exact).
Proof.
  cbv zeta. rewrite geocodeAddress_cascade.
  split; [done|]. split; [|split].
  - unfold applicableTiers. rewrite <- list_fmap_compose.
    generalize (trim street_) (trim number) (trim neighborhood_) (trim city_).
    intros cs cn ch cc. cbn [List.filter tierApplies].
    destruct (nonEmpty cs), (nonEmpty cn), (nonEmpty ch), (nonEmpty cc);
      cbn [andb fmap list_fmap compose fst];
      repeat first [apply sublist_nil | apply sublist_skip | apply sublist_cons].
  - destruct (cascade_spec parseFloat
                (applicableTiers (trim street_) (trim number) (trim neighborhood_)
                   (trim city_)) net)
      as (asked & Hpre & Hlog & _ & Hres & Hnone).
    exists asked. repeat split; try done.
    destruct (fst (cascade _ _ _)); [|done].
    destruct Hres as (before & p & query & result & -> & Hans & ->).
    exists before, p, query, result. done.
  - intros Hs Hn Hc.
    assert (∃ rest,
              applicableTiers (trim street_) (trim number) (trim neighborhood_) (trim city_)
              = (exact, trim street_ ++ comma ++ trim number ++ comma
                          ++ trim city_ ++ RS_BRASIL) :: rest) as [rest Hrest].
    { unfold applicableTiers. cbn [List.filter tierApplies].
      rewrite (nonEmpty_true _ Hs), (nonEmpty_true _ Hn), (nonEmpty_true _ Hc).
      cbn [andb List.map tierQuery]. eauto. }
    rewrite Hrest. split; [eauto|].
    cbn [cascade]. unfold bind, doFetch. cbn [service queries].
    split.
    + destruct (service net (queries net) _) as [result|].
      * exists []. done.
      * match goal with
        | |- context [cascade parseFloat rest ?net'] =>
            destruct (cascade_spec parseFloat rest net') as (asked & _ & Hlog & _)
        end.
        exists (snd <$> asked). rewrite Hlog. cbn [queries].
        by rewrite <- app_assoc.
    + intros result ->. done.
Qed.

(** The first example of the specification, through the theorem. *)
Lemma geocode_tiers_in_order_witness :
  let out := geocodeAddress noCoordinates (lit "Rua X") (lit "100") [] (lit "Y") knowsAll in
  queries (snd out) = [lit "Rua X, 100, Y, Rio Grande do Sul, Brasil"] ∧
  precision <$> fst out = Some exact.
Proof.
  cbv zeta.
  destruct (proj2 (proj2 (proj2 (geocode_tiers_in_order noCoordinates
              (lit "Rua X") (lit "100") [] (lit "Y") knowsAll))))
    as (_ & _ & Hhit).
  - discriminate.
  - discriminate.
  - discriminate.
  - destruct (Hhit _ eq_refl) as [-> _]. split; reflexivity.
Defined.

(** C5 (counterexample). Street, number and city are all non-empty, but
    the street is a single space: after trimming it is empty, the exact and
    street tiers are skipped, and the first and only query issued is the
    city-tier one; the result has precision [city]. *)
Lemma blank_street_skips_exact_tier :
  let out := geocodeAddress noCoordinates (lit " ") (lit "100") [] (lit "Y") knowsAll in
  lit " " ≠ [] ∧ lit "100" ≠ [] ∧ lit "Y" ≠ [] ∧
  queries (snd out) = [lit "Y, Rio Grande do Sul, Brasil"] ∧
  precision <$> fst out = Some city.
Proof. cbv zeta. repeat split; discriminate. Qed.

(** * Properties of the rest of the code *)

Set Warnings "-clear-no-such-hyp".

(** ** Runs of the courier view *)

Lemma run_consistent actions st :
  consistent st →
  consistent (run actions st) ∧
  Forall2 (rtc legal_step) (requests st) (requests (run actions st)).
Proof.
  revert st. induction actions as [|a actions IH]; intros st Hc.
  - split; [done|]. apply Forall2_diag. intros r. apply rtc_refl.
  - cbn [run foldl]. destruct (perform_legal a st Hc) as [Hstep Hc'].
    destruct (IH (perform a st) Hc') as [Hc'' Hchain]. split; [done|].
    eapply Forall2_trans; [|exact Hstep|exact Hchain].
    intros x y z Hxy Hyz. by eapply rtc_l.
Qed.

Lemma initialRequests_NoDup t1 t2 : NoDup (id <$> initialRequests t1 t2).
Proof. apply (bool_decide_unpack _). vm_compute. reflexivity. Qed.

(** X1. Whatever the courier does, no request goes back in the lifecycle
    or changes otherwise: along every run of courier actions over a list
    with unique ids, the request at each position stays at that position,
    keeps its id and every field but the status, and the rank of its
    status in PENDING, ACCEPTED, PICKED_UP, ARRIVED_DESTINATION, DELIVERED
    does not decrease. *)
Theorem status_never_goes_back (actions : list Action) (st : CourierState)
    (k : nat) (r : DeliveryRequest) :
  NoDup (id <$> requests st) →
  requests st !! k = Some r →
  ∃ r', requests (run actions (settle st)) !! k = Some r' ∧
        same_but_status r r' ∧
        (rank (status r) ≤ rank (status r'))%nat.
Proof.
  intros Hnd Hk.
  destruct (Forall2_lookup_l _ _ _ _ _ (run_linear actions st Hnd) Hk) as (r' & Hk' & Hchain).
  exists r'. split; [exact Hk'|].
  destruct (legal_chain_monotone _ _ Hchain) as [Hle Hsame]. by split.
Qed.

Lemma status_never_goes_back_witness :
  ∃ r', requests (run [Accept; Progress; Progress; Decline]
                    (settle (initialCourier (initialRequests 0 0)))) !! 0%nat = Some r' ∧
        id r' = lit "1" ∧ (1 ≤ rank (status r'))%nat.
Proof.
  destruct (status_never_goes_back [Accept; Progress; Progress; Decline]
              (initialCourier (initialRequests 0 0)) 0
              (sampleRequest (lit "1") PENDING 0 None None None None)
              (initialRequests_NoDup 0 0) eq_refl) as (r' & Hk & Hsame & _).
  exists r'. split; [exact Hk|]. split; [exact (proj1 Hsame)|].
  vm_compute in Hk. injection Hk as <-. cbn. lia.
Defined.

Lemma isOfferable_not_ignored ign r : isOfferable ign r = true → id r ∉ ign.
Proof.
  unfold isOfferable. intros H. apply andb_prop in H as [_ H].
  apply negb_true_iff in H. by apply bool_decide_eq_false in H.
Qed.

(** The offer the effects leave is never an ignored request. *)
Lemma offerEffect_offer_not_ignored st o :
  incomingOffer (offerEffect st) = Some o → id o ∉ ignoredOffers st.
Proof.
  destruct (offerEffect_spec st) as (_ & _ & _ & _ & _ & ->).
  destruct (negb _ || _); [done|].
  intros H. apply find_elem_of in H as [_ H]. by apply isOfferable_not_ignored in H.
Qed.

Lemma settle_offer_not_ignored st o :
  incomingOffer (settle st) = Some o → id o ∉ ignoredOffers st.
Proof.
  destruct (settle_spec st) as (_ & _ & _ & _ & _ & ->).
  destruct (negb _ || _); [done|].
  intros H. apply find_elem_of in H as [_ H]. by apply isOfferable_not_ignored in H.
Qed.

(** *** Declining *)

(** X2. Declining the current offer leaves the list of requests as it is
    (the request stays PENDING), puts the id of the offer in the ignored
    set, which loses nothing, and the offer the effects place next is not
    the declined request. *)
Theorem decline_not_reoffered (st : CourierState) (offer : DeliveryRequest) :
  incomingOffer st = Some offer →
  requests (perform Decline st) = requests st ∧
  id offer ∈ ignoredOffers (perform Decline st) ∧
  ignoredOffers st ⊆ ignoredOffers (perform Decline st) ∧
  ∀ o, incomingOffer (perform Decline st) = Some o → id o ≠ id offer.
Proof.
  intros Ho. cbn [perform]. rewrite Ho.
  destruct (offerEffect_spec (handleDeclineOffer st)) as (Hreq & _ & Hign & _ & _ & _).
  assert (ignoredOffers (handleDeclineOffer st) = {[ id offer ]} ∪ ignoredOffers st) as Hdecl
    by (unfold handleDeclineOffer; by rewrite Ho).
  assert (requests (handleDeclineOffer st) = requests st) as Hreq'
    by (unfold handleDeclineOffer; by rewrite Ho).
  split; [congruence|]. split; [rewrite Hign, Hdecl; set_solver|].
  split; [rewrite Hign, Hdecl; set_solver|].
  intros o Hnext Hid. apply offerEffect_offer_not_ignored in Hnext.
  apply Hnext. rewrite Hdecl, Hid. set_solver.
Qed.

(** Declining request ["1"] over the initial list: request ["2"] is offered
    next. *)
Lemma decline_not_reoffered_witness :
  let st := settle (initialCourier (initialRequests 0 0)) in
  requests (perform Decline st) = initialRequests 0 0 ∧
  ∀ o, incomingOffer (perform Decline st) = Some o → id o ≠ lit "1".
Proof.
  cbv zeta.
  destruct (decline_not_reoffered (settle (initialCourier (initialRequests 0 0)))
              (sampleRequest (lit "1") PENDING 0 None None None None) eq_refl)
    as (Hreq & _ & _ & Hnext).
  split; [exact Hreq|exact Hnext].
Defined.

Lemma perform_ignoredOffers a st : ignoredOffers st ⊆ ignoredOffers (perform a st).
Proof.
  destruct a; cbn [perform].
  - destruct (incomingOffer st) eqn:Ho; [|done].
    destruct (settle_spec (handleAcceptOffer st)) as (_ & _ & -> & _).
    unfold handleAcceptOffer. by rewrite Ho.
  - destruct (incomingOffer st) eqn:Ho; [|done].
    destruct (offerEffect_spec (handleDeclineOffer st)) as (_ & _ & -> & _).
    unfold handleDeclineOffer. rewrite Ho. cbn. set_solver.
  - destruct (activeDelivery st) as [a|] eqn:Ha; [|done].
    destruct (progressTarget (status a)) eqn:Ht; [|done].
    destruct (settle_spec (handleProgressAction st)) as (_ & _ & -> & _).
    unfold handleProgressAction. rewrite Ha. by destruct (status a).
  - by destruct (offerEffect_spec (setIsOnline (negb (isOnline st)) st)) as (_ & _ & -> & _).
  - destruct (_ && _); [|done]. by destruct (availableRequests st !! k).
Qed.

Lemma perform_offer_not_ignored a st i :
  automatic a → i ∈ ignoredOffers st →
  (∀ o, incomingOffer st = Some o → id o ≠ i) →
  ∀ o, incomingOffer (perform a st) = Some o → id o ≠ i.
Proof.
  intros Hauto Hi Hst o.
  assert (∀ st', ignoredOffers st ⊆ ignoredOffers st' →
            incomingOffer (settle st') = Some o → id o ≠ i) as Hsettle.
  { intros st' Hsub Hoffer Hid. apply settle_offer_not_ignored in Hoffer. set_solver. }
  assert (∀ st', ignoredOffers st ⊆ ignoredOffers st' →
            incomingOffer (offerEffect st') = Some o → id o ≠ i) as Heffect.
  { intros st' Hsub Hoffer Hid. apply offerEffect_offer_not_ignored in Hoffer. set_solver. }
  destruct a; cbn [perform]; try done.
  - destruct (incomingOffer st) eqn:Hcur; [|rewrite Hcur; by intros ?].
    apply Hsettle. unfold handleAcceptOffer. by rewrite Hcur.
  - destruct (incomingOffer st) eqn:Hcur; [|rewrite Hcur; by intros ?].
    apply Heffect. unfold handleDeclineOffer. rewrite Hcur. cbn. set_solver.
  - destruct (activeDelivery st) as [a|] eqn:Ha; [|apply Hst].
    destruct (progressTarget (status a)) eqn:Ht; [|apply Hst].
    apply Hsettle. unfold handleProgressAction. rewrite Ha. by destruct (status a).
  - by apply Heffect.
Qed.

(** X3. Ignored ids are never forgotten during a run, and once a request
    has been declined, no sequence of accept, decline, progress and
    online-switch actions makes the effects offer it again (only a click
    on the list of available requests can). *)
Theorem declined_stays_declined (actions : list Action) (st : CourierState) (i : jsstring) :
  ignoredOffers st ⊆ ignoredOffers (run actions st) ∧
  (Forall automatic actions → i ∈ ignoredOffers st →
   (∀ o, incomingOffer st = Some o → id o ≠ i) →
   ∀ o, incomingOffer (run actions st) = Some o → id o ≠ i).
Proof.
  revert st. induction actions as [|a actions IH]; intros st; [done|].
  cbn [run foldl]. destruct (IH (perform a st)) as [IHsub IHoffer].
  pose proof (perform_ignoredOffers a st) as Hsub.
  split; [set_solver|].
  intros Hauto Hi Hst. apply Forall_cons in Hauto as [Ha Hauto].
  apply IHoffer; [done|set_solver|].
  by apply perform_offer_not_ignored.
Qed.

(** After request ["1"] is declined, going offline and online again does
    not bring it back. *)
Lemma declined_stays_declined_witness :
  let st := perform Decline (settle (initialCourier (initialRequests 0 0))) in
  ∃ o, incomingOffer (run [ToggleOnline; ToggleOnline] st) = Some o ∧ id o ≠ lit "1".
Proof.
  cbv zeta. eexists. split; [vm_compute; reflexivity|].
  refine (proj2 (declined_stays_declined [ToggleOnline; ToggleOnline]
                   (perform Decline (settle (initialCourier (initialRequests 0 0))))
                   (lit "1")) _ _ _ _ _).
  - repeat constructor.
  - apply (bool_decide_unpack _). vm_compute. reflexivity.
  - intros o [= <-]. discriminate.
  - vm_compute. reflexivity.
Defined.

(** *** Offers and the active delivery exclude each other *)

Lemma offerEffect_idle_offer st : idle_offer (offerEffect st).
Proof.
  destruct (offerEffect_spec st) as (_ & Hon & _ & _ & Hact & Hoffer).
  unfold idle_offer. rewrite Hon, Hact, Hoffer. split.
  - intros H. rewrite (bool_decide_eq_true_2 _ H). by rewrite orb_true_r.
  - by intros ->.
Qed.

Lemma settle_idle_offer st : idle_offer (settle st).
Proof. apply offerEffect_idle_offer. Qed.

Lemma perform_idle_offer a st : idle_offer st → idle_offer (perform a st).
Proof.
  intros Hidle. destruct a; cbn [perform].
  - destruct (incomingOffer st); [apply settle_idle_offer|done].
  - destruct (incomingOffer st); [apply offerEffect_idle_offer|done].
  - destruct (activeDelivery st) as [a|]; [|done].
    destruct (progressTarget (status a)); [apply settle_idle_offer|done].
  - apply offerEffect_idle_offer.
  - destruct (isOnline st) eqn:Hon; cbn; [|done].
    destruct (bool_decide (is_Some (incomingOffer st))); cbn; [done|].
    destruct (bool_decide (is_Some (activeDelivery st))) eqn:Hact; cbn; [done|].
    destruct (availableRequests st !! k); [|done].
    apply bool_decide_eq_false in Hact. split; cbn; [done|congruence].
Qed.

(** X4. In every state the courier view comes to rest on, along every
    run, there is no offer while a delivery is active, nor while the
    courier is offline. The render committed on the way there, after a
    change of the list, can hold both: its active delivery is the one of
    the list, while its offer was computed from the active delivery of the
    render before; so right after an offer has been accepted, with another
    request on offer, that render shows the next offer besides the new
    active delivery. The run of the offer effect that follows clears the
    offer. *)
Theorem never_offer_when_busy (actions : list Action) (st : CourierState) :
  let st' := run actions (settle st) in
  ((is_Some (activeDelivery st') → incomingOffer st' = None) ∧
   (isOnline st' = false → incomingOffer st' = None)) ∧
  (∀ offer a,
     isOnline st = true → activeDelivery st = None →
     List.find (isOfferable (ignoredOffers st)) (requests st) = Some offer →
     List.find isActive (requests st) = Some a →
     incomingOffer (commit st) = Some offer ∧ activeDelivery (commit st) = Some a ∧
     incomingOffer (settle st) = None ∧ activeDelivery (settle st) = Some a).
Proof.
  cbv zeta. split.
  - pose proof (settle_idle_offer st) as Hidle.
    generalize dependent (settle st). clear st.
    induction actions as [|a actions IH]; intros st Hidle; [done|].
    cbn [run foldl]. apply IH. by apply perform_idle_offer.
  - intros offer a Hon Hnone Hoffer Hactive.
    destruct (commit_spec st) as (_ & _ & _ & _ & -> & ->).
    destruct (settle_spec st) as (_ & _ & _ & _ & -> & ->).
    rewrite Hon, Hnone, Hoffer, Hactive. cbn [negb orb].
    rewrite bool_decide_false by (by intros [? ?]).
    rewrite bool_decide_true by (by eexists). done.
Qed.

(** Accepting the first offer over the initial list: the render committed
    first shows request ["2"] on offer besides the active delivery; at rest
    the offer is gone. *)
Lemma never_offer_when_busy_witness :
  let accepted := handleAcceptOffer (settle (initialCourier (initialRequests 0 0))) in
  incomingOffer (run [Accept] (settle (initialCourier (initialRequests 0 0)))) = None ∧
  incomingOffer (commit accepted) = Some (secondRequest PENDING 0) ∧
  activeDelivery (commit accepted)
    = Some (sampleRequest (lit "1") ACCEPTED 0 None None None None) ∧
  incomingOffer (settle accepted) = None.
Proof.
  cbv zeta. split.
  - apply (proj1 (proj1 (never_offer_when_busy [Accept]
                           (initialCourier (initialRequests 0 0))))).
    vm_compute. eauto.
  - destruct (proj2 (never_offer_when_busy []
                (handleAcceptOffer (settle (initialCourier (initialRequests 0 0)))))
                (secondRequest PENDING 0)
                (sampleRequest (lit "1") ACCEPTED 0 None None None None)
                eq_refl eq_refl) as (Hoffer & Hactive & Hrest & _).
    + vm_compute. reflexivity.
    + reflexivity.
    + auto.
Defined.


(** ** Status updates compose *)

Lemma handleUpdateStatus_override i s s' prev :
  handleUpdateStatus i s' (handleUpdateStatus i s prev) = handleUpdateStatus i s' prev.
Proof.
  unfold handleUpdateStatus. rewrite map_map. apply map_ext. intros r.
  destruct (decide (id r = i)) as [Hi|Hi]; cbn.
  - by rewrite decide_True.
  - by rewrite decide_False.
Qed.

Lemma handleUpdateStatus_commute i j s s' prev :
  i ≠ j →
  handleUpdateStatus i s (handleUpdateStatus j s' prev)
  = handleUpdateStatus j s' (handleUpdateStatus i s prev).
Proof.
  intros Hij. unfold handleUpdateStatus. rewrite !map_map. apply map_ext. intros r.
  destruct (decide (id r = j)) as [Hj|Hj], (decide (id r = i)) as [Hi|Hi]; cbn;
    [congruence|..];
    repeat first [rewrite decide_True by done | rewrite decide_False by done]; done.
Qed.

(** X5. Two updates of the same id amount to the later one, updates of
    different ids commute, and an update never changes the ids or the
    creation times of the list. *)
Theorem handleUpdateStatus_compose (i j : jsstring) (s s' : DeliveryStatus)
    (prev : list DeliveryRequest) :
  handleUpdateStatus i s' (handleUpdateStatus i s prev) = handleUpdateStatus i s' prev ∧
  (i ≠ j →
   handleUpdateStatus i s (handleUpdateStatus j s' prev)
   = handleUpdateStatus j s' (handleUpdateStatus i s prev)) ∧
  id <$> handleUpdateStatus i s prev = id <$> prev ∧
  createdAt <$> handleUpdateStatus i s prev = createdAt <$> prev.
Proof.
  split; [apply handleUpdateStatus_override|].
  split; [apply handleUpdateStatus_commute|].
  split; [apply handleUpdateStatus_ids|].
  unfold handleUpdateStatus. induction prev as [|r prev IH]; [done|].
  cbn. rewrite <- IH. by destruct (decide (id r = i)).
Qed.

Lemma handleUpdateStatus_compose_witness :
  handleUpdateStatus (lit "1") ACCEPTED (handleUpdateStatus (lit "2") DELIVERED (initialRequests 0 0))
  = handleUpdateStatus (lit "2") DELIVERED (handleUpdateStatus (lit "1") ACCEPTED (initialRequests 0 0)).
Proof.
  apply (proj1 (proj2 (handleUpdateStatus_compose (lit "1") (lit "2") ACCEPTED DELIVERED
                         (initialRequests 0 0)))).
  discriminate.
Defined.

(** ** Statistics *)

Lemma delivered_final r r' : rtc legal_step r r' → status r = DELIVERED → r' = r.
Proof.
  induction 1 as [r|r r1 r' Hstep _ IH]; [done|].
  intros Hd. destruct Hstep as [->|[Hsucc _]]; [by apply IH|].
  rewrite Hd in Hsucc. discriminate.
Qed.

Lemma Forall2_filter_length {A} (R : A → A → Prop) (f : A → bool) (l l' : list A) :
  Forall2 R l l' → (∀ x y, R x y → f x = true → f y = true) →
  (length (List.filter f l) ≤ length (List.filter f l'))%nat.
Proof.
  intros HF HR. induction HF as [|x y l l' Hxy _ IH]; [done|].
  cbn. destruct (f x) eqn:Hx.
  - rewrite (HR x y Hxy Hx). cbn. lia.
  - destruct (f y); cbn; lia.
Qed.

(** X6. When the ids of the list are unique, a request that is DELIVERED
    is never changed again in a run of the courier view: it stays in its
    place, as it is. *)
Theorem delivered_is_final (actions : list Action) (st : CourierState)
    (k : nat) (r : DeliveryRequest) :
  NoDup (id <$> requests st) →
  requests st !! k = Some r → status r = DELIVERED →
  requests (run actions (settle st)) !! k = Some r.
Proof.
  intros Hnd Hk Hd.
  destruct (run_consistent actions (settle st) (settle_consistent st Hnd)) as [_ Hchain].
  rewrite settle_requests in Hchain.
  destruct (Forall2_lookup_l _ _ _ _ _ Hchain Hk) as (r' & Hk' & Hrr').
  rewrite Hk'. f_equal. by apply delivered_final.
Qed.

Lemma delivered_is_final_witness :
  requests (run [Accept; Progress; Progress; Progress] (settle (initialCourier oneDelivered)))
    !! 0%nat = Some (sampleRequest (lit "1") DELIVERED 0 None None None None).
Proof.
  apply (delivered_is_final [Accept; Progress; Progress; Progress]
           (initialCourier oneDelivered) 0%nat); [|reflexivity|reflexivity].
  apply (bool_decide_unpack _). vm_compute. reflexivity.
Defined.

(** X7. Every request is counted in exactly one of the three groups the
    courier view computes (finished, available, active); and when the ids
    of the list are unique, the number of finished deliveries never goes
    down in a run. *)
Theorem statistics_consistent (actions : list Action) (st : CourierState) :
  (length (finishedRequests st) + length (availableRequests st)
   + length (List.filter isActive (requests st)) = length (requests st))%nat ∧
  (NoDup (id <$> requests st) →
   (finishedCount (settle st) ≤ finishedCount (run actions (settle st)))%nat).
Proof.
  split.
  - unfold finishedRequests, availableRequests.
    induction (requests st) as [|r l IH]; [done|].
    cbn [List.filter]. unfold isActive at 1.
    destruct (status r);
      repeat match goal with
             | |- context [bool_decide ?P] =>
                 let b := eval vm_compute in (bool_decide P) in
                 change (bool_decide P) with b
             end;
      cbn [length]; lia.
  - intros Hnd.
    destruct (run_consistent actions (settle st) (settle_consistent st Hnd)) as [_ Hchain].
    unfold finishedCount, finishedRequests.
    apply (Forall2_filter_length _ _ _ _ Hchain).
    intros x y Hxy Hx. apply bool_decide_eq_true in Hx.
    apply bool_decide_eq_true. by rewrite (delivered_final x y Hxy Hx).
Qed.

Lemma statistics_consistent_witness :
  (finishedCount (settle (initialCourier (initialRequests 0 0)))
   ≤ finishedCount (run [Accept; Progress; Progress; Progress]
                      (settle (initialCourier (initialRequests 0 0)))))%nat.
Proof.
  apply (proj2 (statistics_consistent [Accept; Progress; Progress; Progress]
                  (initialCourier (initialRequests 0 0)))).
  apply (bool_decide_unpack _). vm_compute. reflexivity.
Defined.

Example earnings_after_one_delivery :
  todayEarnings (run [Accept; Progress; Progress; Progress]
                   (settle (initialCourier (initialRequests 0 0)))) = 15.9%float.
Proof. reflexivity. Qed.

(** ** The progress button follows one delivery *)









(** ** Geolocation *)

Lemma DEFAULT_isNum : isNum (Some DEFAULT_LAT) = true ∧ isNum (Some DEFAULT_LNG) = true.
Proof. split; reflexivity. Qed.

Lemma perform_userLocation a st : userLocation (perform a st) = userLocation st.
Proof.
  assert (∀ st', userLocation (settle st') = userLocation st') as Hsettle
    by (intros st'; by destruct (settle_spec st') as (_ & _ & _ & -> & _)).
  assert (∀ st', userLocation (offerEffect st') = userLocation st') as Heffect
    by (intros st'; by destruct (offerEffect_spec st') as (_ & _ & _ & -> & _)).
  destruct a; cbn [perform].
  - destruct (incomingOffer st) eqn:Ho; [|done]. rewrite Hsettle.
    unfold handleAcceptOffer. by rewrite Ho.
  - destruct (incomingOffer st) eqn:Ho; [|done]. rewrite Heffect.
    unfold handleDeclineOffer. by rewrite Ho.
  - destruct (activeDelivery st) as [a|] eqn:Ha; [|done].
    destruct (progressTarget (status a)); [|done]. rewrite Hsettle.
    unfold handleProgressAction. rewrite Ha. by destruct (status a).
  - by rewrite Heffect.
  - destruct (_ && _); [|done]. by destruct (availableRequests st !! k).
Qed.

Lemma getTargetCoordinates_Some uL request :
  isNum (Some (fst uL)) = true → isNum (Some (snd uL)) = true →
  is_Some (getTargetCoordinates uL request).
Proof.
  intros Hlat Hlng. unfold getTargetCoordinates. rewrite Hlat, Hlng. cbn.
  destruct (status request); by destruct (storedPair _ _).
Qed.

(** X10. The courier's location always consists of two numbers: whatever
    positions or errors the geolocation reports and whatever the courier
    does, [userLocation] passes [isNum], so that [getTargetCoordinates]
    never answers [null]. *)
Theorem location_always_numeric (events : list (GeoEvent + Action)) (st : CourierState)
    (request : DeliveryRequest) :
  isNum (Some (fst (userLocation st))) = true →
  isNum (Some (snd (userLocation st))) = true →
  let st' := foldl (λ st e, match e with
                            | inl g => onGeoEvent g st
                            | inr a => perform a st
                            end) st events in
  isNum (Some (fst (userLocation st'))) = true ∧
  isNum (Some (snd (userLocation st'))) = true ∧
  is_Some (getTargetCoordinates (userLocation st') request).
Proof.
  cbv zeta. revert st. induction events as [|e events IH]; intros st Hlat Hlng.
  - split; [done|]. split; [done|]. by apply getTargetCoordinates_Some.
  - cbn [foldl]. destruct e as [[latitude longitude|]|a].
    + cbn [onGeoEvent].
      destruct (isNum (Some latitude) && isNum (Some longitude)) eqn:Hnum;
        [|by apply IH].
      apply andb_prop in Hnum as [? ?]. by apply IH.
    + by apply IH.
    + apply IH; by rewrite perform_userLocation.
Qed.

(** A position with a latitude that is not a number is not taken. *)
Lemma location_always_numeric_witness :
  let st := foldl (λ st e, match e with
                           | inl g => onGeoEvent g st
                           | inr a => perform a st
                           end)
              (initialCourier (initialRequests 0 0))
              [inl (GeoPosition nan 1); inr Accept; inl (GeoPosition (-30) (-51)); inl GeoError] in
  is_Some (getTargetCoordinates (userLocation st)
             (sampleRequest (lit "1") ACCEPTED 0 None None None None)).
Proof.
  cbv zeta.
  exact (proj2 (proj2 (location_always_numeric
           [inl (GeoPosition nan 1); inr Accept; inl (GeoPosition (-30) (-51)); inl GeoError]
           (initialCourier (initialRequests 0 0))
           (sampleRequest (lit "1") ACCEPTED 0 None None None None)
           eq_refl eq_refl))).
Defined.


(** ** The routing service and the route drawn *)

(** X11. [fetchRoute] turns the [[lng, lat]] pairs of the first route into
    [[lat, lng]] points, one for one and in order, when the service
    answers with code "Ok", a first route and its coordinates: then it
    gives these points. In every other case (no answer, another code, no
    route or no coordinates) it gives [null]: whenever it gives points,
    the answer was of that kind and the points are the swapped pairs. *)
Theorem fetchRoute_swaps (osrm : LatLng → LatLng → option OsrmData) (start end_ : LatLng) :
  (∀ data route rest coords,
     osrm start end_ = Some data → code data = lit "Ok" →
     routes data = Some (route :: rest) → coordinates route = Some coords →
     ∃ points,
       fetchRoute osrm start end_ = Some points ∧
       length points = length coords ∧
       ∀ k lng lat, coords !! k = Some (lng, lat) → points !! k = Some (lat, lng)) ∧
  (∀ points,
     fetchRoute osrm start end_ = Some points →
     ∃ data route rest coords,
       osrm start end_ = Some data ∧ code data = lit "Ok" ∧
       routes data = Some (route :: rest) ∧ coordinates route = Some coords ∧
       length points = length coords ∧
       ∀ k lng lat, coords !! k = Some (lng, lat) → points !! k = Some (lat, lng)).
Proof.
  assert (∀ coords : list (float * float),
            length (List.map (λ coord, (snd coord, fst coord)) coords) = length coords ∧
            ∀ k lng lat, coords !! k = Some (lng, lat) →
              List.map (λ coord, (snd coord, fst coord)) coords !! k = Some (lat, lng))
    as Hswap.
  { intros coords. split; [by rewrite length_map|]. intros k lng lat Hk.
    change (List.map ?f ?l) with (f <$> l). by rewrite list_lookup_fmap, Hk. }
  split.
  - intros data route rest coords Hdata Hcode Hroutes Hcoords.
    exists (List.map (λ coord, (snd coord, fst coord)) coords).
    split; [|apply Hswap]. unfold fetchRoute.
    rewrite Hdata, Hroutes, Hcoords. by rewrite bool_decide_true.
  - intros points. unfold fetchRoute. destruct (osrm start end_) as [data|]; [|done].
    destruct (bool_decide (code data = lit "Ok")) eqn:Hcode; [|done].
    apply bool_decide_eq_true in Hcode.
    destruct (routes data) as [[|route rest]|] eqn:Hroutes; try done.
    destruct (coordinates route) as [coords|] eqn:Hcoords; [|done].
    intros [= <-]. exists data, route, rest, coords.
    destruct (Hswap coords) as [Hlen Hk]. done.
Qed.

(** The answer of two points is turned into two points, swapped. *)
Lemma fetchRoute_swaps_witness :
  ∃ points,
    fetchRoute twoPointRoute (0, 0)%float (1, 1)%float = Some points ∧
    length points = 2%nat ∧
    points !! 0%nat = Some (-29.7, -53.8)%float ∧
    points !! 1%nat = Some (-29.6, -53.9)%float.
Proof.
  destruct (proj1 (fetchRoute_swaps twoPointRoute (0, 0)%float (1, 1)%float)
              _ _ _ _ eq_refl eq_refl eq_refl eq_refl)
    as (points & Hfetch & Hlen & Hswap).
  exists points. split; [exact Hfetch|]. split; [exact Hlen|].
  split; [exact (Hswap 0%nat _ _ eq_refl)|exact (Hswap 1%nat _ _ eq_refl)].
Defined.



(** ** Pseudo-coordinates *)

Lemma idHash_acc (s : jsstring) (acc : Z) :
  fold_left (λ acc char, acc + Z.of_N char) s acc = acc + idHash s.
Proof.
  unfold idHash. revert acc. induction s as [|c s IH]; intros acc; cbn [fold_left]; [lia|].
  rewrite (IH (acc + Z.of_N c)), (IH (0 + Z.of_N c)). lia.
Qed.

Lemma idHash_Permutation (i j : jsstring) : i ≡ₚ j → idHash i = idHash j.
Proof.
  induction 1 as [|c i j _ IH|c d i|i j k _ IH1 _ IH2]; [done|..].
  - unfold idHash. cbn. by rewrite !idHash_acc, IH.
  - unfold idHash. cbn. rewrite !idHash_acc. lia.
  - congruence.
Qed.

(** X13. The pseudo-coordinate of a non-empty id depends on the id only
    through the sum of its code units modulo 100: non-empty ids whose sums
    agree modulo 100, in particular non-empty ids that are rearrangements
    of each other, get the same point (so there are at most 100 points
    around a centre). The empty id is hashed as the string "default" and
    gets the point of that id. *)
Theorem getCoordinates_collisions (i j : jsstring) (centerLat centerLng : float) :
  (i ≠ [] → j ≠ [] →
   (idHash i mod 100 = idHash j mod 100 ∨ i ≡ₚ j) →
   getCoordinates i centerLat centerLng = getCoordinates j centerLat centerLng) ∧
  getCoordinates [] centerLat centerLng = getCoordinates (lit "default") centerLat centerLng.
Proof.
  split; [|reflexivity].
  intros Hi Hj Hsum.
  assert (idHash i mod 100 = idHash j mod 100) as Hmod.
  { destruct Hsum as [H|H]; [done|]. by rewrite (idHash_Permutation i j H). }
  unfold getCoordinates. destruct i as [|c i]; [done|]. destruct j as [|d j]; [done|].
  cbv zeta. rewrite Hmod.
  replace ((idHash (c :: i) * 13) mod 100) with ((idHash (d :: j) * 13) mod 100); [done|].
  rewrite (Z.mul_mod (idHash (d :: j))), (Z.mul_mod (idHash (c :: i))) by lia.
  by rewrite Hmod.
Qed.

Lemma getCoordinates_collisions_witness :
  getCoordinates (lit "12") DEFAULT_LAT DEFAULT_LNG
  = getCoordinates (lit "21") DEFAULT_LAT DEFAULT_LNG ∧
  getCoordinates (lit "1") DEFAULT_LAT DEFAULT_LNG
  = getCoordinates (lit "1d") DEFAULT_LAT DEFAULT_LNG.
Proof.
  split.
  - apply getCoordinates_collisions; [discriminate|discriminate|].
    right. apply Permutation_swap.
  - apply getCoordinates_collisions; [discriminate|discriminate|].
    left. reflexivity.
Defined.

(** ** The simulated marker *)

Lemma simulationTick_numeric s startPos endPos st :
  isNum (Some (fst (snd st))) = true → isNum (Some (snd (snd st))) = true →
  isNum (Some (fst (snd (simulationTick s startPos endPos st)))) = true ∧
  isNum (Some (snd (snd (simulationTick s startPos endPos st)))) = true.
Proof.
  intros Hlat Hlng. unfold simulationTick.
  match goal with |- context [if ?c then _ else _] => destruct c eqn:Hnum end; [|done].
  by apply andb_prop in Hnum as [? ?].
Qed.

(** X14. The simulation never puts the courier marker on a position that
    is not a pair of numbers: after any number of ticks, on any leg and
    from any counter, a marker that started on numbers is on numbers. *)
Theorem marker_stays_numeric (n : nat) (s : DeliveryStatus) (startPos endPos : LatLng)
    (progress : float) (marker : LatLng) :
  isNum (Some (fst marker)) = true → isNum (Some (snd marker)) = true →
  let st := Nat.iter n (simulationTick s startPos endPos) (progress, marker) in
  isNum (Some (fst (snd st))) = true ∧ isNum (Some (snd (snd st))) = true.
Proof.
  intros Hlat Hlng. cbv zeta. induction n as [|n [IH1 IH2]]; [done|].
  rewrite Nat.iter_succ. by apply simulationTick_numeric.
Qed.

(** A leg that ends at infinity: the marker is left where it was. *)
Lemma marker_stays_numeric_witness :
  snd (Nat.iter 3 (simulationTick PICKED_UP (1, 1)%float (infinity, 2%float))
         (0%float, (1, 1)%float)) = (1, 1)%float.
Proof.
  destruct (marker_stays_numeric 3 PICKED_UP (1, 1)%float (infinity, 2%float)
              0%float (1, 1)%float eq_refl eq_refl) as [_ _].
  reflexivity.
Defined.


(** ** Request markers *)

Lemma placeMarker_dom (st : CourierState) (markers : gmap jsstring Marker)
    (req : DeliveryRequest) :
  dom (placeMarker st markers req) ⊆ dom markers ∪ {[ id req ]}.
Proof.
  unfold placeMarker.
  destruct (negb _ || negb _); [set_solver|].
  destruct (_ && _ && _ && _).
  - rewrite dom_delete_L. set_solver.
  - rewrite dom_insert_L. set_solver.
Qed.

Lemma placeMarker_other (st : CourierState) (markers : gmap jsstring Marker)
    (req : DeliveryRequest) (i : jsstring) :
  id req ≠ i → placeMarker st markers req !! i = markers !! i.
Proof.
  intros Hne. unfold placeMarker.
  destruct (negb _ || negb _); [done|].
  destruct (_ && _ && _ && _).
  - by rewrite lookup_delete_ne.
  - by rewrite lookup_insert_ne.
Qed.

Lemma foldl_placeMarker_dom (st : CourierState) (l : list DeliveryRequest)
    (markers : gmap jsstring Marker) :
  dom (foldl (placeMarker st) markers l) ⊆ dom markers ∪ list_to_set (id <$> l).
Proof.
  revert markers. induction l as [|req l IH]; intros markers; cbn [foldl].
  - set_solver.
  - etrans; [apply IH|]. pose proof (placeMarker_dom st markers req).
    rewrite fmap_cons. cbn [list_to_set]. set_solver.
Qed.

(** X15. After the marker effect only requests that are shown have a
    marker: the incoming offer if there is one, else the active delivery,
    else the available requests. *)
Theorem markers_only_for_shown (st : CourierState) (markers : gmap jsstring Marker)
    (i : jsstring) :
  i ∈ dom (markersEffect st markers) →
  ∃ req, req ∈ requestsToShow st ∧ id req = i ∧
    match incomingOffer st, activeDelivery st with
    | Some offer, _ => req = offer
    | None, Some active => req = active
    | None, None => req ∈ requests st ∧ status req = PENDING
    end.
Proof.
  intros Hi. unfold markersEffect in Hi.
  apply foldl_placeMarker_dom in Hi.
  assert (i ∈ (id <$> requestsToShow st)) as Hshown.
  { apply elem_of_union in Hi as [Hi|Hi]; [|by apply elem_of_list_to_set in Hi].
    apply elem_of_dom in Hi as [mk Hmk].
    by apply map_lookup_filter_Some in Hmk as [_ Hin]. }
  apply list_elem_of_fmap in Hshown as (req & -> & Hreq).
  exists req. split; [done|]. split; [done|].
  unfold requestsToShow in Hreq.
  destruct (incomingOffer st) as [offer|]; [by apply list_elem_of_singleton in Hreq|].
  destruct (activeDelivery st) as [active|]; [by apply list_elem_of_singleton in Hreq|].
  unfold availableRequests in Hreq.
  apply list_elem_of_In, filter_In in Hreq as [Hin Hp].
  split; [by apply list_elem_of_In|]. by apply bool_decide_eq_true in Hp.
Qed.

Lemma markers_only_for_shown_witness :
  let st := settle (initialCourier (initialRequests 0 0)) in
  dom (markersEffect st {[ lit "2" := oldMarker ]}) = {[ lit "1" ]}.
Proof.
  cbv zeta. apply set_eq. intros i. split.
  - intros Hi.
    destruct (markers_only_for_shown _ _ i Hi) as (req & _ & <- & ->).
    by apply elem_of_singleton.
  - intros ->%elem_of_singleton. apply (bool_decide_unpack _). by vm_compute.
Defined.

Lemma foldl_placeMarker_ignored (st : CourierState) (l : list DeliveryRequest)
    (markers : gmap jsstring Marker) (i : jsstring) :
  incomingOffer st = None → activeDelivery st = None → i ∈ ignoredOffers st →
  (∀ req, req ∈ l → status req = PENDING) →
  (∀ req, req ∈ l → id req = i →
     isNum (Some (fst (markerCoords st req))) = true ∧
     isNum (Some (snd (markerCoords st req))) = true) →
  (i ∈ dom markers → ∃ req, req ∈ l ∧ id req = i) →
  i ∉ dom (foldl (placeMarker st) markers l).
Proof.
  intros Ho Ha Hi. revert markers.
  induction l as [|req l IH]; intros markers Hp Hnum Hm; cbn [foldl].
  - intros Hin. destruct (Hm Hin) as (req & Hreq & _). by apply elem_of_nil in Hreq.
  - apply IH.
    + intros r Hr. apply Hp. by right.
    + intros r Hr. apply Hnum. by right.
    + destruct (decide (id req = i)) as [Heq|Hne].
      * intros Hin. exfalso. revert Hin. unfold placeMarker.
        destruct (Hnum req) as [-> ->]; [left|done|]. cbn [negb orb].
        rewrite (bool_decide_eq_true_2 (status req = PENDING)) by (apply Hp; left).
        rewrite Heq, (bool_decide_eq_true_2 _ Hi), Ho, Ha. cbn.
        rewrite dom_delete_L. set_solver.
      * intros Hin. apply elem_of_dom in Hin.
        rewrite placeMarker_other in Hin by done. apply elem_of_dom in Hin.
        destruct (Hm Hin) as (r & Hr & Hid). exists r. split; [|done].
        apply elem_of_cons in Hr as [->|Hr]; [done|done].
Qed.

(** X16. With neither an offer nor an active delivery, a pending request
    the courier has declined has no marker after the marker effect,
    provided its marker position is a pair of numbers (the effect gives up
    on a request before that test otherwise). *)
Theorem declined_request_has_no_marker (st : CourierState)
    (markers : gmap jsstring Marker) (i : jsstring) :
  incomingOffer st = None → activeDelivery st = None → i ∈ ignoredOffers st →
  (∀ req, req ∈ requests st → id req = i →
     isNum (Some (fst (markerCoords st req))) = true ∧
     isNum (Some (snd (markerCoords st req))) = true) →
  i ∉ dom (markersEffect st markers).
Proof.
  intros Ho Ha Hi Hnum. unfold markersEffect.
  assert (requestsToShow st = availableRequests st) as Hshown
    by (unfold requestsToShow; by rewrite Ho, Ha).
  rewrite Hshown.
  assert (∀ req, req ∈ availableRequests st → req ∈ requests st ∧ status req = PENDING)
    as Havail.
  { intros req Hreq. unfold availableRequests in Hreq.
    apply list_elem_of_In, filter_In in Hreq as [Hin Hp].
    split; [by apply list_elem_of_In|]. by apply bool_decide_eq_true in Hp. }
  apply foldl_placeMarker_ignored; try done.
  - intros req Hreq. by apply Havail.
  - intros req Hreq. apply Hnum. by apply Havail.
  - intros Hin. apply elem_of_dom in Hin as [mk Hmk].
    apply map_lookup_filter_Some in Hmk as [_ Hin]. cbn in Hin.
    apply list_elem_of_fmap in Hin as (req & -> & Hreq). eauto.
Qed.

(** X17. The marker of the active delivery sits on the navigation target:
    when no offer is shown and [getTargetCoordinates] gives a pair of
    numbers for the active delivery, the marker effect puts the marker of
    that request exactly there. *)
Theorem active_marker_on_target (st : CourierState) (markers : gmap jsstring Marker)
    (active : DeliveryRequest) (target : LatLng) :
  incomingOffer st = None → activeDelivery st = Some active →
  getTargetCoordinates (userLocation st) active = Some target →
  isNum (Some (fst target)) = true → isNum (Some (snd target)) = true →
  ∃ marker, markersEffect st markers !! id active = Some marker ∧ latlng marker = target.
Proof.
  intros Ho Ha Htarget Hlat Hlng.
  assert (markerCoords st active = target) as Hcoords.
  { unfold getTargetCoordinates in Htarget. unfold markerCoords, hasId.
    rewrite Ha, bool_decide_eq_true_2 by done.
    destruct (negb _ || negb _); [done|].
    destruct (status active); cbn;
      destruct (storedPair _ _); by injection Htarget as <-. }
  unfold markersEffect, requestsToShow. rewrite Ho, Ha. cbn [foldl].
  unfold placeMarker. rewrite Hcoords, Hlat, Hlng, Ha.
  cbn [negb orb]. rewrite (bool_decide_eq_true_2 (is_Some (Some active))) by eauto.
  rewrite !andb_false_r. cbn [negb andb].
  rewrite lookup_insert_eq. eauto.
Qed.

(** Both initial requests declined: the old marker of request ["1"] goes. *)
Lemma declined_request_has_no_marker_witness :
  let st := run [Decline; Decline] (settle (initialCourier (initialRequests 0 0))) in
  bool_decide (lit "1" ∈ dom (markersEffect st {[ lit "1" := oldMarker ]})) = false.
Proof.
  cbv zeta. apply bool_decide_eq_false. apply declined_request_has_no_marker.
  - reflexivity.
  - reflexivity.
  - apply (bool_decide_unpack _). vm_compute. reflexivity.
  - intros req Hreq Hid.
    change (requests _) with (initialRequests 0 0) in Hreq.
    apply elem_of_cons in Hreq as [->|Hreq]; [split; reflexivity|].
    apply elem_of_cons in Hreq as [->|Hreq]; [discriminate|].
    by apply elem_of_nil in Hreq.
Defined.

Lemma active_marker_on_target_witness :
  let st := run [Accept] (settle (initialCourier (initialRequests 0 0))) in
  ∃ marker, markersEffect st ∅ !! lit "1" = Some marker ∧
            latlng marker = getCoordinates (lit "1") DEFAULT_LAT DEFAULT_LNG.
Proof.
  cbv zeta.
  exact (active_marker_on_target
           (run [Accept] (settle (initialCourier (initialRequests 0 0)))) ∅
           (sampleRequest (lit "1") ACCEPTED 0 None None None None)
           (getCoordinates (lit "1") DEFAULT_LAT DEFAULT_LNG)
           eq_refl eq_refl eq_refl eq_refl eq_refl).
Defined.


(** ** The order form *)

Lemma finalCoords_spec parseFloat type f net :
  let stored := match type with
                | Customer.pickup => (Customer.pickupLat f, Customer.pickupLng f)
                | Customer.dropoff => (Customer.dropoffLat f, Customer.dropoffLng f)
                end in
  if truthy (fst stored) && truthy (snd stored)
  then Customer.finalCoords parseFloat type f net = (Some stored, net)
  else
    let out := geocodeAddress parseFloat (Customer.street_of type f) (Customer.number_of type f)
                 (Customer.neighborhood_of type f) (Customer.city_of type f) net in
    Customer.finalCoords parseFloat type f net
    = (match fst out with
       | Some r => Some (Some (lat r), Some (lng r))
       | None => None
       end, snd out).
Proof.
  cbv zeta. unfold Customer.finalCoords.
  destruct type; cbn [fst snd];
    match goal with |- context [truthy ?a && truthy ?b] =>
      destruct (truthy a), (truthy b); cbn [negb orb andb]; try done
    end;
    unfold bind;
    match goal with |- context [geocodeAddress ?p ?a ?b ?c ?d ?n] =>
      destruct (geocodeAddress p a b c d n) as [[r|] net']; done
    end.
Qed.

(** X18. A submission that ends with an alert creates nothing and loses
    nothing: the form, the open dialog and the tab are as before. With a
    required field empty (item, recipient name or phone, street, number or
    city of either address) no lookup is made at all. *)
Theorem rejected_submission_keeps_form (parseFloat : jsstring → float)
    (st : Customer.State) (net : Net) :
  let out := Customer.handleSubmit parseFloat st net in
  (∀ message, fst (fst out) = Customer.Alerted message →
     Customer.formData (snd (fst out)) = Customer.formData st ∧
     Customer.isCreatingOrder (snd (fst out)) = Customer.isCreatingOrder st ∧
     Customer.activeTab (snd (fst out)) = Customer.activeTab st) ∧
  (Customer.requiredFilled (Customer.formData st) = false →
     out = (Customer.Alerted Customer.ALERT_FIELDS, st, net)).
Proof.
  cbv zeta. unfold Customer.handleSubmit.
  destruct (Customer.requiredFilled (Customer.formData st)); cbn [negb]; [|done].
  split; [|done]. unfold bind.
  destruct (Customer.finalCoords parseFloat Customer.pickup _ net) as [[[la lo]|] net1];
    [|done].
  destruct (Customer.finalCoords parseFloat Customer.dropoff _ net1) as [[[la' lo']|] net2];
    done.
Qed.

Lemma rejected_submission_keeps_form_witness :
  Customer.handleSubmit noCoordinates
    (formState (Customer.onChange Customer.F_recipientPhone [] filledForm)) knowsAll
  = (Customer.Alerted Customer.ALERT_FIELDS,
     formState (Customer.onChange Customer.F_recipientPhone [] filledForm), knowsAll).
Proof.
  apply (proj2 (rejected_submission_keeps_form noCoordinates
                  (formState (Customer.onChange Customer.F_recipientPhone [] filledForm))
                  knowsAll)).
  reflexivity.
Defined.

(** X19. When the pickup address has to be looked up and nothing is found,
    the submission ends with the pickup alert and the dropoff address is
    not looked up: the only queries issued are those of the pickup
    cascade. *)
Theorem pickup_failure_stops_submission (parseFloat : jsstring → float)
    (st : Customer.State) (net : Net) :
  let f := Customer.formData st in
  let lookup := geocodeAddress parseFloat (Customer.pickupStreet f) (Customer.pickupNumber f)
                  (Customer.pickupNeighborhood f) (Customer.pickupCity f) net in
  Customer.requiredFilled f = true →
  truthy (Customer.pickupLat f) && truthy (Customer.pickupLng f) = false →
  fst lookup = None →
  Customer.handleSubmit parseFloat st net
  = (Customer.Alerted Customer.ALERT_PICKUP,
     Customer.mkState f false (Customer.isCreatingOrder st) (Customer.activeTab st),
     snd lookup).
Proof.
  cbv zeta. intros Hreq Hstored Hnone. unfold Customer.handleSubmit. rewrite Hreq.
  cbn [negb]. unfold bind.
  pose proof (finalCoords_spec parseFloat Customer.pickup (Customer.formData st) net) as Hp.
  cbv zeta in Hp. cbn [fst snd] in Hp. rewrite Hstored in Hp.
  cbn [Customer.street_of Customer.number_of Customer.neighborhood_of Customer.city_of] in Hp.
  rewrite Hp, Hnone. done.
Qed.

Lemma pickup_failure_stops_submission_witness :
  let out := Customer.handleSubmit noCoordinates (formState filledForm) knowsNone in
  fst (fst out) = Customer.Alerted Customer.ALERT_PICKUP ∧
  length (queries (snd out)) = 4%nat.
Proof.
  cbv zeta.
  rewrite (pickup_failure_stops_submission noCoordinates (formState filledForm) knowsNone
             eq_refl eq_refl eq_refl).
  split; reflexivity.
Defined.

(** X20. With all required fields filled and both coordinate pairs already
    validated (truthy), the submission makes no lookup: it hands over a
    request with the texts of the form, the two full addresses and exactly
    the stored coordinates, resets the form, closes the dialog and goes to
    the activity tab. *)
Theorem validated_submission_creates (parseFloat : jsstring → float)
    (st : Customer.State) (net : Net) :
  let f := Customer.formData st in
  Customer.requiredFilled f = true →
  truthy (Customer.pickupLat f) && truthy (Customer.pickupLng f) = true →
  truthy (Customer.dropoffLat f) && truthy (Customer.dropoffLng f) = true →
  Customer.handleSubmit parseFloat st net
  = (Customer.Created
       (requestObject (Customer.itemDescription f)
          (Customer.getFullAddress Customer.pickup f)
          (Customer.getFullAddress Customer.dropoff f)
          (Customer.recipientName f) (Customer.recipientPhone f)
          (Customer.paymentMethod f) (Customer.payer f)
          (Customer.pickupLat f) (Customer.pickupLng f)
          (Customer.dropoffLat f) (Customer.dropoffLng f)),
     Customer.mkState Customer.emptyForm false false Customer.activity,
     net).
Proof.
  cbv zeta. intros Hreq Hp Hd. unfold Customer.handleSubmit. rewrite Hreq.
  cbn [negb]. unfold bind.
  pose proof (finalCoords_spec parseFloat Customer.pickup (Customer.formData st) net) as Hp'.
  pose proof (finalCoords_spec parseFloat Customer.dropoff (Customer.formData st) net) as Hd'.
  cbv zeta in Hp', Hd'. cbn [fst snd] in Hp', Hd'. rewrite Hp in Hp'. rewrite Hd in Hd'.
  by rewrite Hp', Hd'.
Qed.

Lemma validated_submission_creates_witness :
  let out := Customer.handleSubmit noCoordinates (formState validatedForm) knowsAll in
  queries (snd out) = [] ∧
  Customer.formData (snd (fst out)) = Customer.emptyForm ∧
  ∃ req, fst (fst out) = Customer.Created req ∧
         storedPair (pickupLat req) (pickupLng req) = Some (1, 1)%float ∧
         pickupAddress req = lit "Rua X, 100 - Centro, Y".
Proof.
  cbv zeta.
  rewrite (validated_submission_creates noCoordinates (formState validatedForm) knowsAll
             eq_refl eq_refl eq_refl).
  split; [reflexivity|]. split; [reflexivity|]. eexists. split; [reflexivity|].
  split; reflexivity.
Defined.


(** X21. When a submission directly follows an edit of the street, number
    or city of an address, with no validation answer stored in between,
    that address is looked up during the submission: a request is created
    only with the coordinates the geocoder answers then for the edited
    address, asked on the network as the submission finds it (for the
    dropoff address, as the pickup step of the submission leaves it), not
    with what the form held before. A validation answer that comes in
    after the edit is outside this: it stores a pair again. *)
Theorem edited_address_is_looked_up (parseFloat : jsstring → float)
    (fld : Customer.Field) (value : jsstring) (type : Customer.Side)
    (st : Customer.State) (net net' : Net) (st' : Customer.State) (req : DeliveryRequest) :
  let f := Customer.onChange fld value (Customer.formData st) in
  let asked := match type with
               | Customer.pickup => net
               | Customer.dropoff => snd (Customer.finalCoords parseFloat Customer.pickup f net)
               end in
  invalidates fld = Some type →
  Customer.handleSubmit parseFloat
    (Customer.mkState f (Customer.isSubmitting st) (Customer.isCreatingOrder st)
       (Customer.activeTab st)) net
  = (Customer.Created req, st', net') →
  ∃ r,
    fst (geocodeAddress parseFloat (Customer.street_of type f) (Customer.number_of type f)
           (Customer.neighborhood_of type f) (Customer.city_of type f) asked) = Some r ∧
    requestCoords type req = (Some (lat r), Some (lng r)).
Proof.
  cbv zeta. intros Hinv. unfold Customer.handleSubmit. cbn [Customer.formData].
  set (f := Customer.onChange fld value (Customer.formData st)).
  destruct (Customer.requiredFilled f); cbn [negb]; [|done].
  unfold bind.
  pose proof (finalCoords_spec parseFloat Customer.pickup f net) as Hp.
  cbv zeta in Hp. cbn [fst snd] in Hp.
  destruct (Customer.finalCoords parseFloat Customer.pickup f net) as [[[pla plo]|] net1]
    eqn:Hfp; [|done].
  pose proof (finalCoords_spec parseFloat Customer.dropoff f net1) as Hd.
  cbv zeta in Hd. cbn [fst snd] in Hd.
  destruct (Customer.finalCoords parseFloat Customer.dropoff f net1) as [[[dla dlo]|] net2]
    eqn:Hfd; [|done].
  intros [= <- _ _].
  assert (fst (formCoords type f) = None) as Hcleared.
  { subst f. destruct fld; try discriminate Hinv; injection Hinv as <-; reflexivity. }
  destruct type; cbn [formCoords fst snd] in Hcleared |- *; cbn [requestCoords requestObject
    pickupLat pickupLng dropoffLat dropoffLng].
  - rewrite Hcleared in Hp. cbn [truthy andb] in Hp.
    destruct (geocodeAddress parseFloat _ _ _ _ net) as [[r|] netB] eqn:Hgeo;
      cbn [fst snd] in Hp |- *; [|done].
    injection Hp as -> -> ->. exists r. done.
  - rewrite Hcleared in Hd. cbn [truthy andb] in Hd.
    destruct (geocodeAddress parseFloat _ _ _ _ net1) as [[r|] netB] eqn:Hgeo;
      cbn [fst snd] in Hd |- *; [|done].
    injection Hd as -> -> ->. exists r. done.
Qed.

(** The validated form with the pickup street edited: the request is
    created with what the geocoder answers for the new street, not with
    the pair (1, 1) the form held. *)
Lemma edited_address_is_looked_up_witness :
  let f := Customer.onChange Customer.F_pickupStreet (lit "Rua W") validatedForm in
  ∃ req r,
    fst (fst (Customer.handleSubmit noCoordinates (formState f) knowsAll))
      = Customer.Created req ∧
    fst (geocodeAddress noCoordinates (lit "Rua W") (lit "100") (lit "Centro") (lit "Y")
           knowsAll) = Some r ∧
    (pickupLat req, pickupLng req) = (Some (lat r), Some (lng r)).
Proof.
  cbv zeta.
  destruct (edited_address_is_looked_up noCoordinates Customer.F_pickupStreet (lit "Rua W")
              Customer.pickup (formState validatedForm) knowsAll _ _ _ eq_refl eq_refl)
    as (r & Hgeo & Hcoords).
  refine (ex_intro _ _ (ex_intro _ r (conj _ (conj Hgeo Hcoords)))).
  reflexivity.
Defined.

(** X22. Validating one address never touches the texts, the payment
    choices or the coordinates of the other address. With an empty city it
    does nothing and asks nothing; otherwise it stores the answer of the
    geocoder as the pair of that address, or clears both numbers when
    there is no answer. *)
Theorem validate_touches_one_address (parseFloat : jsstring → float)
    (type : Customer.Side) (f prev : Customer.FormData) (net : Net) :
  let out := Customer.handleValidateAddress parseFloat type f net in
  let lookup := geocodeAddress parseFloat (Customer.street_of type f)
                  (Customer.number_of type f) (Customer.neighborhood_of type f)
                  (Customer.city_of type f) net in
  sameInputs prev (fst out prev) ∧
  formCoords (otherSide type) (fst out prev) = formCoords (otherSide type) prev ∧
  (Customer.city_of type f = [] → fst out prev = prev ∧ snd out = net) ∧
  (Customer.city_of type f ≠ [] →
     snd out = snd lookup ∧
     formCoords type (fst out prev)
     = match fst lookup with
       | Some r => (Some (lat r), Some (lng r))
       | None => (None, None)
       end).
Proof.
  cbv zeta. unfold Customer.handleValidateAddress.
  destruct (Customer.city_of type f) as [|c city'] eqn:Hcity; cbn [nonEmpty negb].
  - repeat split; done.
  - unfold bind. rewrite <- Hcity.
    destruct (geocodeAddress parseFloat _ _ _ _ net) as [[r|] net1];
      cbn [fst snd ret]; (split; [destruct type; repeat split|]);
      (split; [by destruct type|]); (split; [by rewrite Hcity|]);
      intros _; by destruct type.
Qed.

Lemma validate_touches_one_address_witness :
  let out := Customer.handleValidateAddress noCoordinates Customer.pickup filledForm knowsNone in
  formCoords Customer.pickup (fst out validatedForm) = (None, None) ∧
  formCoords Customer.dropoff (fst out validatedForm) = (Some 2%float, Some 2%float) ∧
  Customer.handleValidateAddress noCoordinates Customer.dropoff
    (Customer.onChange Customer.F_dropoffCity [] filledForm) knowsAll
  = (λ prev, prev, knowsAll).
Proof.
  cbv zeta.
  pose proof (validate_touches_one_address noCoordinates Customer.pickup filledForm
                validatedForm knowsNone) as (_ & Hother & _ & Hset).
  pose proof (validate_touches_one_address noCoordinates Customer.dropoff
                (Customer.onChange Customer.F_dropoffCity [] filledForm)
                validatedForm knowsAll) as (_ & _ & Hempty & _).
  split; [exact (proj2 (Hset ltac:(discriminate)))|].
  split; [exact Hother|]. reflexivity.
Defined.

Lemma find_by_id (l : list DeliveryRequest) (a : DeliveryRequest) :
  NoDup (id <$> l) → a ∈ l →
  List.find (λ r, bool_decide (id r = id a)) l = Some a.
Proof.
  intros Hnd Ha.
  destruct (List.find (λ r, bool_decide (id r = id a)) l) as [x|] eqn:Hfind.
  - apply find_elem_of in Hfind as [Hx Hid]. apply bool_decide_eq_true in Hid.
    f_equal. by apply (unique_id l).
  - pose proof (find_first (λ r, bool_decide (id r = id a)) l) as Hall.
    rewrite Hfind in Hall. rewrite Forall_forall in Hall.
    specialize (Hall a Ha). cbn in Hall. by rewrite bool_decide_eq_false in Hall.
Qed.

(** X23. The customer's tracking card follows the list: when the ids are
    distinct and the tracked request is in the list, after any status
    update the card shows the tracked request with its status replaced if
    the update was for its id and unchanged otherwise, and what it shows is
    again a request of the list. A tracked request whose id is not in the
    list is kept as it is. *)
Theorem tracking_follows_status (reqs : list DeliveryRequest) (tracked : DeliveryRequest)
    (i : jsstring) (s : DeliveryStatus) :
  NoDup (id <$> reqs) →
  (tracked ∈ reqs →
     ∃ shown,
       Customer.trackingSync (handleUpdateStatus i s reqs) (Some tracked) = Some shown ∧
       shown ∈ handleUpdateStatus i s reqs ∧
       shown = (if decide (id tracked = i) then with_status s tracked else tracked)) ∧
  (id tracked ∉ id <$> reqs →
     Customer.trackingSync (handleUpdateStatus i s reqs) (Some tracked) = Some tracked).
Proof.
  intros Hnd. split.
  - intros Hin.
    set (shown := if decide (id tracked = i) then with_status s tracked else tracked).
    assert (id shown = id tracked) as Hid by (subst shown; by destruct (decide _)).
    assert (shown ∈ handleUpdateStatus i s reqs) as Hshown.
    { unfold handleUpdateStatus. apply list_elem_of_In, in_map_iff.
      exists tracked. split; [done|by apply list_elem_of_In]. }
    exists shown. split; [|done]. unfold Customer.trackingSync.
    rewrite <- Hid. rewrite find_by_id; [done| |done].
    by rewrite handleUpdateStatus_ids.
  - intros Hout. unfold Customer.trackingSync.
    destruct (List.find _ _) as [x|] eqn:Hfind; [|done].
    apply find_elem_of in Hfind as [Hx Hid]. apply bool_decide_eq_true in Hid.
    exfalso. apply Hout. rewrite <- Hid, <- (handleUpdateStatus_ids i s).
    apply list_elem_of_fmap. eauto.
Qed.

Lemma tracking_follows_status_witness :
  ∃ shown,
    Customer.trackingSync (handleUpdateStatus (lit "1") ACCEPTED (initialRequests 0 0))
      (Some (sampleRequest (lit "1") PENDING 0 None None None None)) = Some shown ∧
    status shown = ACCEPTED.
Proof.
  destruct (tracking_follows_status (initialRequests 0 0)
              (sampleRequest (lit "1") PENDING 0 None None None None)
              (lit "1") ACCEPTED (initialRequests_NoDup 0 0)) as [Hin _].
  destruct Hin as (shown & Hsync & _ & Hshown).
  - unfold initialRequests. apply elem_of_cons. by left.
  - exists shown. split; [exact Hsync|]. rewrite Hshown. reflexivity.
Defined.

(** X24. A request the customer has just created is what a courier who
    then opens the courier view is offered, whatever else is pending,
    unless a delivery is already under way: then the courier gets no offer
    and that delivery is shown. *)
Theorem new_request_is_offered (rnd : jsstring) (now : Z) (newRequest : DeliveryRequest)
    (prev : list DeliveryRequest) :
  let reqs := handleCreateRequest rnd now newRequest prev in
  let st := settle (initialCourier reqs) in
  activeDelivery st = List.find isActive prev ∧
  (List.find isActive prev = None →
     ∃ o, incomingOffer st = Some o ∧ head reqs = Some o ∧
          id o = rnd ∧ status o = PENDING ∧ createdAt o = now) ∧
  (is_Some (List.find isActive prev) → incomingOffer st = None).
Proof.
  cbv zeta.
  destruct (settle_spec (initialCourier (handleCreateRequest rnd now newRequest prev)))
    as (_ & _ & _ & _ & Hact & Hoffer).
  rewrite Hact, Hoffer. unfold handleCreateRequest.
  cbn [requests initialCourier isOnline ignoredOffers negb orb List.find isActive status].
  split; [done|]. split.
  - intros ->. rewrite bool_decide_false by (by intros [? ?]).
    unfold isOfferable. cbn [status id].
    rewrite bool_decide_true by done.
    rewrite bool_decide_false by set_solver. cbn [andb negb head].
    eexists. repeat split.
  - intros Hsome. by rewrite bool_decide_true.
Qed.

Lemma createdAt_handleUpdateStatus (i : jsstring) (s : DeliveryStatus)
    (t : Z) (prev : list DeliveryRequest) :
  Forall (λ r, createdAt r ≤ t) prev →
  Forall (λ r, createdAt r ≤ t) (handleUpdateStatus i s prev).
Proof.
  unfold handleUpdateStatus. intros H. induction H as [|r l Hr _ IH]; cbn; [constructor|].
  constructor; [|done]. by destruct (decide (id r = i)).
Qed.

(** X25. The list of requests stays ordered newest first whatever [App]
    does to it, as long as the clock never goes back: starting from a list
    in that order whose requests are no later than [t0], any sequence of
    creations and status updates whose clock readings are non-decreasing
    from [t0] leaves the list ordered newest first. *)
Theorem requests_stay_newest_first (ops : list AppOp) (prev : list DeliveryRequest) (t0 : Z) :
  newestFirst prev →
  Forall (λ r, createdAt r ≤ t0) prev →
  StronglySorted Z.le (t0 :: clockReadings ops) →
  newestFirst (foldl applyOp prev ops).
Proof.
  revert prev t0. induction ops as [|op ops IH]; intros prev t0 Hs Hle Hclock; [done|].
  cbn [foldl]. destruct op as [rnd now newRequest|i s]; cbn [applyOp].
  - unfold clockReadings in Hclock. cbn in Hclock.
    apply StronglySorted_inv in Hclock as [Hrest Hall].
    apply Forall_cons in Hall as [Hnow _].
    assert (Forall (λ r, createdAt r ≤ now) prev) as Hle'.
    { eapply Forall_impl; [exact Hle|]. cbn. intros r Hr. lia. }
    apply (IH _ now); [by apply handleCreateRequest_newestFirst| |exact Hrest].
    unfold handleCreateRequest. constructor; [cbn; lia|done].
  - apply (IH _ t0); [by apply handleUpdateStatus_newestFirst|
                      by apply createdAt_handleUpdateStatus|exact Hclock].
Qed.

Lemma requests_stay_newest_first_witness :
  newestFirst
    (foldl applyOp (initialRequests 0 0)
       [Create (lit "a") 5 (sampleRequest [] PENDING 0 None None None None);
        Update (lit "a") ACCEPTED;
        Create (lit "b") 9 (sampleRequest [] PENDING 0 None None None None)]).
Proof.
  apply (requests_stay_newest_first _ (initialRequests 0 0) 0).
  - unfold initialRequests. repeat constructor; cbn; lia.
  - unfold initialRequests. repeat constructor; cbn; lia.
  - unfold clockReadings. cbn. repeat constructor; lia.
Defined.

Lemma new_request_is_offered_witness :
  ∃ o, incomingOffer (settle (initialCourier
         (handleCreateRequest (lit "k3x9") 7
            (sampleRequest [] PENDING 0 None None None None) (initialRequests 0 0))))
       = Some o ∧ id o = lit "k3x9".
Proof.
  destruct (new_request_is_offered (lit "k3x9") 7
              (sampleRequest [] PENDING 0 None None None None) (initialRequests 0 0))
    as (_ & Hoffer & _).
  destruct (Hoffer eq_refl) as (o & Ho & _ & Hid & _).
  exists o. split; [exact Ho|exact Hid].
Defined.


(** ** The assistant *)

Lemma sendMessageToChat_returns (reply : Reply) :
  ∃ t, sendMessageToChat reply = Returned t ∧ t ≠ [].
Proof.
  destruct reply as [[v|]|]; cbn; try (eexists; split; [reflexivity|done]).
  destruct v as [|c v]; cbn; eexists; split; try reflexivity; done.
Qed.

Lemma dialogue_send (n : nat) : dialogue n false ++ [Chat.user] = dialogue n true.
Proof. induction n as [|n IH]; [done|]. cbn. by rewrite IH. Qed.

Lemma dialogue_answer (n : nat) : dialogue n true ++ [Chat.model] = dialogue (S n) false.
Proof.
  induction n as [|n IH]; [done|].
  change (dialogue (S n) true) with (Chat.user :: Chat.model :: dialogue n true).
  rewrite <- !app_comm_cons, IH. done.
Qed.

Lemma orderly_handleSend (now : Z) (st : Chat.State) :
  orderly st → orderly (Chat.handleSend now st).
Proof.
  intros Hst. unfold Chat.handleSend.
  destruct (nonEmpty (trim (Chat.inputText st))) eqn:Hblank; [|exact Hst].
  destruct (Chat.session st) eqn:Hsession; [|exact Hst].
  destruct (Chat.isLoading st) eqn:Hload; [exact Hst|]. cbn [negb orb].
  destruct Hst as (Hroles & Hwait & Htexts & Huser).
  assert (trim (Chat.inputText st) ≠ []) as Htrim by (by destruct (trim _)).
  assert (Chat.inputText st ≠ []) as Hinput by (by intros Heq; rewrite Heq in Htrim).
  split; [|split; [|split]]; cbn [Chat.messages Chat.isLoading Chat.awaiting].
  - destruct Hroles as [n Hn]. exists n. rewrite Hload in Hn.
    by rewrite fmap_app, Hn, <- app_comm_cons, dialogue_send.
  - split; [by eexists|done].
  - apply Forall_app. split; [done|]. by constructor.
  - apply Forall_app. split; [done|]. by constructor.
Qed.

Lemma orderly_step (st : Chat.State) (ev : Chat.Event) :
  orderly st → orderly (Chat.step st ev).
Proof.
  intros Hst. destruct ev as [v|now|key shiftKey now|reply now]; cbn [Chat.step].
  - exact Hst.
  - by apply orderly_handleSend.
  - unfold Chat.handleKeyPress.
    destruct (_ && _); [by apply orderly_handleSend|done].
  - unfold Chat.handleSend_resume.
    destruct (Chat.awaiting st) as [msg|] eqn:Haw; [|exact Hst].
    destruct Hst as (Hroles & Hwait & Htexts & Huser).
    assert (Chat.isLoading st = true) as Hload by (apply Hwait; by eexists).
    destruct (sendMessageToChat_returns reply) as (t & -> & Ht).
    split; [|split; [|split]]; cbn [Chat.messages Chat.isLoading Chat.awaiting].
    + destruct Hroles as [n Hn]. exists (S n). rewrite Hload in Hn.
      by rewrite fmap_app, Hn, <- app_comm_cons, dialogue_answer.
    + split; [done|by intros [? ?]].
    + apply Forall_app. split; [done|]. by constructor.
    + apply Forall_app. split; [done|]. by constructor.
Qed.

Lemma messages_step (st : Chat.State) (ev : Chat.Event) :
  Chat.messages st `prefix_of` Chat.messages (Chat.step st ev).
Proof.
  destruct ev as [v|now|key shiftKey now|reply now]; cbn [Chat.step].
  - done.
  - unfold Chat.handleSend. destruct (_ || _); [done|]. by apply prefix_app_r.
  - unfold Chat.handleKeyPress, Chat.handleSend.
    destruct (_ && _); [|done]. destruct (_ || _); [done|]. by apply prefix_app_r.
  - unfold Chat.handleSend_resume. destruct (Chat.awaiting st); [|done].
    by apply prefix_app_r.
Qed.

(** X26. The conversation of the assistant stays in order whatever the
    user does and whenever the answers come: nothing already shown is
    changed or removed; after the greeting the messages of the user and of
    the assistant alternate, with one unanswered message of the user
    exactly while the component is loading (a second message is never sent
    before the answer has come); no shown message is empty, and no message
    of the user is blank. *)
Theorem conversation_stays_orderly (evs : list Chat.Event) (st : Chat.State) :
  orderly st →
  orderly (Chat.run evs st) ∧
  Chat.messages st `prefix_of` Chat.messages (Chat.run evs st).
Proof.
  revert st. induction evs as [|ev evs IH]; intros st Hst; [done|].
  unfold Chat.run. cbn [foldl].
  destruct (IH (Chat.step st ev) (orderly_step st ev Hst)) as [Ho Hp].
  split; [exact Ho|]. etrans; [apply messages_step|exact Hp].
Qed.

Lemma initial_orderly (now : Z) : orderly (Chat.mountEffect (Chat.initial now)).
Proof.
  repeat split; cbn.
  - by exists 0%nat.
  - done.
  - by intros [? ?].
  - by repeat constructor.
  - by repeat constructor.
Qed.

Lemma conversation_stays_orderly_witness :
  orderly (Chat.run chatSession (Chat.mountEffect (Chat.initial 0))) ∧
  Chat.role <$> Chat.messages (Chat.run chatSession (Chat.mountEffect (Chat.initial 0)))
  = [Chat.model; Chat.user; Chat.model; Chat.user; Chat.model].
Proof.
  split; [|reflexivity].
  exact (proj1 (conversation_stays_orderly chatSession _ (initial_orderly 0))).
Defined.

(** X27. What the assistant shows for an awaited answer is always what
    [sendMessageToChat] returns, so the apology in the [catch] of
    [handleSend] is never reached: a non-empty text of the service is shown
    as it is, a missing or empty text gives the fixed excuse, a rejected
    call the fixed connection error; the loading ends and the input is
    left as the user has it. *)
Theorem answer_is_always_shown (reply : Reply) (now : Z) (st : Chat.State) :
  is_Some (Chat.awaiting st) →
  let shown := match reply with
               | Resolved (Some (c :: v)) => c :: v
               | Resolved _ => NO_TEXT
               | Rejected => CHAT_ERROR
               end in
  sendMessageToChat reply = Returned shown ∧
  Chat.handleSend_resume reply now st
  = Chat.mkState (Chat.messages st ++ [Chat.mkMessage Chat.model shown now])
      (Chat.inputText st) false (Chat.session st) None.
Proof.
  intros [msg Haw]. cbv zeta. unfold Chat.handleSend_resume. rewrite Haw.
  by destruct reply as [[[|c v]|]|].
Qed.

Lemma answer_is_always_shown_witness :
  let st := Chat.run [Chat.Typed (lit "Oi"); Chat.SendClicked 1]
              (Chat.mountEffect (Chat.initial 0)) in
  Chat.text <$> Chat.messages (Chat.handleSend_resume Rejected 2 st)
  = [Chat.GREETING; lit "Oi"; CHAT_ERROR].
Proof.
  cbv zeta.
  rewrite (proj2 (answer_is_always_shown Rejected 2
                    (Chat.run [Chat.Typed (lit "Oi"); Chat.SendClicked 1]
                       (Chat.mountEffect (Chat.initial 0)))
                    (ex_intro _ (lit "Oi") eq_refl))).
  reflexivity.
Defined.

(** X28. Before the session exists nothing can be sent: without the mount
    effect no sequence of typing, clicks and key presses adds a message or
    starts loading. *)
Theorem no_session_no_message (evs : list Chat.Event) (st : Chat.State) :
  Chat.session st = false → Chat.awaiting st = None →
  Chat.messages (Chat.run evs st) = Chat.messages st ∧
  Chat.isLoading (Chat.run evs st) = Chat.isLoading st.
Proof.
  revert st. induction evs as [|ev evs IH]; intros st Hs Ha; [done|].
  unfold Chat.run. cbn [foldl].
  assert (∀ now, Chat.handleSend now st = st) as Hsend.
  { intros now. unfold Chat.handleSend. rewrite Hs. cbn [negb].
    by rewrite orb_true_r. }
  assert (Chat.session (Chat.step st ev) = false ∧
          Chat.awaiting (Chat.step st ev) = None ∧
          Chat.messages (Chat.step st ev) = Chat.messages st ∧
          Chat.isLoading (Chat.step st ev) = Chat.isLoading st) as (Hs' & Ha' & Hm & Hl).
  { destruct ev as [v|now|key shiftKey now|reply now]; cbn [Chat.step].
    - done.
    - by rewrite Hsend.
    - unfold Chat.handleKeyPress. destruct (_ && _); by rewrite ?Hsend.
    - unfold Chat.handleSend_resume. by rewrite Ha. }
  destruct (IH _ Hs' Ha') as [IHm IHl]. unfold Chat.run in IHm, IHl.
  by rewrite IHm, IHl.
Qed.

Lemma no_session_no_message_witness :
  Chat.messages (Chat.run chatSession (Chat.initial 0)) = Chat.messages (Chat.initial 0).
Proof.
  exact (proj1 (no_session_no_message chatSession (Chat.initial 0) eq_refl eq_refl)).
Defined.

(** ** The image service *)

(** X29. [generateItemImage] throws exactly when the call to the model
    rejects. Otherwise it reads only the parts of the first candidate: it
    returns [null] exactly when none of them carries non-empty inline
    data, and else the data URL of the first that does, so a URL it
    returns starts with [data:] and never has an empty payload; later
    candidates are ignored. *)
Theorem generateItemImage_first_inline (answer : option ImageResponse) :
  (generateItemImage answer = Threw ↔ answer = None) ∧
  ∀ response, answer = Some response →
    match List.find hasData (responseParts response) with
    | None =>
        generateItemImage answer = Returned None ∧
        Forall (λ p, hasData p = false) (responseParts response)
    | Some part =>
        ∃ before after d payload,
          responseParts response = before ++ part :: after ∧
          Forall (λ p, hasData p = false) before ∧
          inlineData part = Some d ∧ data d = Some payload ∧ payload ≠ [] ∧
          generateItemImage answer
          = Returned (Some (lit "data:" ++ inTemplate (mimeType d)
                            ++ lit ";base64," ++ payload))
    end.
Proof.
  split.
  - destruct answer; cbn; split; done.
  - intros response ->. unfold generateItemImage. cbn [tryCatch].
    pose proof (find_first hasData (responseParts response)) as Hfind.
    destruct (List.find hasData (responseParts response)) as [part|].
    + destruct Hfind as (before & after & Hsplit & Hhas & Hbefore).
      unfold hasData in Hhas.
      destruct (inlineData part) as [d|] eqn:Hd; [|done].
      destruct (data d) as [payload|] eqn:Hdata; [|done].
      exists before, after, d, payload. repeat split; try done.
      * by destruct payload.
      * cbn. unfold dataUrl. rewrite Hd, Hdata. done.
    + done.
Qed.

Lemma generateItemImage_first_inline_witness :
  generateItemImage (Some imageAnswer) = Returned (Some (lit "data:image/png;base64,AAAA")).
Proof.
  pose proof (proj2 (generateItemImage_first_inline (Some imageAnswer)) imageAnswer eq_refl)
    as Hfirst.
  change (List.find hasData (responseParts imageAnswer))
    with (Some (mkPart (Some (mkInlineData (Some (lit "image/png")) (Some (lit "AAAA"))))))
    in Hfirst.
  destruct Hfirst as (before & after & d & payload & _ & _ & Hd & Hdata & _ & Hurl).
  injection Hd as <-. injection Hdata as <-. exact Hurl.
Defined.
